(** * ITQ similarity index (smqtk/similarity_index/lsh/itq.py)

    A shallow embedding of [ITQSimilarityIndex]: the trained state, the
    training pass [build_index], the hasher [get_small_code], the query
    [nn], [count], [save_index] and [load_index], with the properties
    stated about them.

    Python integers are [Z]; exceptions are a result type; the numpy
    kernels and the distance functions, which are external to the class,
    are the fields of the [Numpy] and [DistanceFunctions] interfaces; the
    code index is a finite map from small codes to buckets, and the index
    factory a callable on the code indexes that the caller keeps. *)

From Stdlib Require Import ZArith List Lia Bool Ascii String Sorted Permutation.
From stdpp Require Import gmap strings list fin_maps sorting.

Local Open Scope Z_scope.

(** ** Exceptions and results *)

(** The exception classes that the modelled methods can raise. *)
Inductive exn : Type :=
  | ValueError
  | TypeError
  | AttributeError
  | KeyError
  | IOError
  | UnpicklingError
  | LinAlgError
  | AssertionError
  | IndexError
  | SimilarityIndexStateLoadError
  | SimilarityIndexStateSaveError.

Inductive result (A : Type) : Type :=
  | Ok (a : A)
  | Raise (e : exn).

Arguments Ok {A} a.
Arguments Raise {A} e.

#[global] Instance exn_eq_dec : EqDecision exn.
Proof. solve_decision. Defined.

#[global] Instance result_ret : MRet result := fun _ a => Ok a.

#[global] Instance result_bind : MBind result := fun _ _ f m =>
  match m with
  | Ok a => f a
  | Raise e => Raise e
  end.

#[global] Instance result_fmap : FMap result := fun _ _ f m =>
  match m with
  | Ok a => Ok (f a)
  | Raise e => Raise e
  end.

Definition is_Ok {A} (r : result A) : bool :=
  match r with Ok _ => true | Raise _ => false end.

(** ** Python helpers *)

(** [l[:n]]: the first [n] elements, counting from the end when [n < 0]. *)
Definition py_slice_to {A} (n : Z) (l : list A) : list A :=
  if n <? 0 then take (Z.to_nat (Z.of_nat (length l) + n)) l
  else take (Z.to_nat n) l.

(** [sorted(l, key=key, reverse=reverse)]: a stable sort, comparing keys
    with [<] only.  An element goes in front of the already sorted tail
    unless a tail element has to precede it. *)
Section Sorted.
Context {A K : Type} (lt : K -> K -> bool) (key : A -> K).

Fixpoint sorted_insert (reverse : bool) (x : A) (l : list A) : list A :=
  match l with
  | [] => [x]
  | y :: l' =>
      if (if reverse then lt (key x) (key y) else lt (key y) (key x))
      then y :: sorted_insert reverse x l'
      else x :: l
  end.

Definition sorted (reverse : bool) (l : list A) : list A :=
  foldr (sorted_insert reverse) [] l.

(** [a] may stand before [b]: [b]'s key is not below [a]'s. *)
Definition key_le (a b : A) : Prop := lt (key b) (key a) = false.

(** The comparisons that sorting relies on, over the keys of a list: [<]
    is asymmetric and its complement is transitive. *)
Definition strict_weak_on (l : list A) : Prop :=
  (forall a b, a ∈ l -> b ∈ l ->
     lt (key a) (key b) = true -> lt (key b) (key a) = false) /\
  (forall a b c, a ∈ l -> b ∈ l -> c ∈ l ->
     lt (key b) (key a) = false -> lt (key c) (key b) = false ->
     lt (key c) (key a) = false).

(** The same condition as a test that can be run. *)
Definition strict_weakb (ks : list K) : bool :=
  forallb (fun a => forallb (fun b =>
    implb (lt a b) (negb (lt b a)) &&
    forallb (fun c =>
      implb (negb (lt b a) && negb (lt c b)) (negb (lt c a))) ks) ks) ks.
End Sorted.

(** [heapq.nsmallest(n, iterable, key)], which the library documents as
    [sorted(iterable, key=key)[:n]]; nothing is selected for [n <= 0]. *)
Definition nsmallest {A} (n : Z) (l : list A) (key : A -> Z) : list A :=
  take (Z.to_nat n) (sorted Z.ltb key false l).

(** Unzipping [ordered] and unpacking the outcome into two names: an
    empty list yields no value to unpack. *)
Definition unzip_pairs {A B} (l : list (A * B)) : result (list A * list B) :=
  match l with
  | [] => Raise ValueError
  | _ => Ok (l.*1, l.*2)
  end.

(** [os.path.join(a, b)] for a relative [b]. *)
Fixpoint ends_with_slash (a : string) : bool :=
  match a with
  | EmptyString => false
  | String c EmptyString => if decide (c = "/"%char) then true else false
  | String _ a' => ends_with_slash a'
  end.

Definition osp_join (a b : string) : string :=
  if decide (a = EmptyString) then b
  else if ends_with_slash a then a +:+ b
  else a +:+ "/" +:+ b.

(** ** The numpy interface *)

(** Numbers, their arithmetic and comparisons, the global random state and
    the numerical kernels are numpy's.  Nothing is assumed of them here. *)
Class Numpy : Type := {
  num : Type;
  num_zero : num;
  num_one : num;
  num_add : num -> num -> num;
  num_sub : num -> num -> num;
  num_mul : num -> num -> num;
  num_opp : num -> num;
  (** [a >= b] and [a < b] *)
  num_ge : num -> num -> bool;
  num_lt : num -> num -> bool;
  (** the state of [numpy.random] *)
  RandomState : Type;
  (** the state that [numpy.random.seed(s)] installs *)
  seeded : Z -> RandomState;
  (** [numpy.random.randn(r, c)] *)
  randn : nat -> nat -> RandomState -> list (list num) * RandomState;
  (** [numpy.mean(x, axis=0)] *)
  np_mean : list (list num) -> result (list num);
  (** [numpy.cov(m)] *)
  np_cov : list (list num) -> result (list (list num));
  (** [numpy.linalg.eig(c)]: eigenvalues, and eigenvectors as columns *)
  linalg_eig : list (list num) -> result (list num * list (list num));
  (** [numpy.linalg.svd(c)]: [(u, s, v)] *)
  linalg_svd :
    list (list num) -> result (list (list num) * list num * list (list num));
}.

Section Arrays.
Context `{Numpy}.

(** A one-dimensional array is the list of its entries and a
    two-dimensional array the list of its rows. *)
Definition ndarray1 : Type := list num.
Definition ndarray2 : Type := list (list num).

(** [m.shape[1]] *)
Definition shape1 {A} (m : list (list A)) : nat := length (default [] (head m)).

Definition column (j : nat) (m : ndarray2) : ndarray1 :=
  map (fun row => nth j row num_zero) m.

(** [m.transpose()] *)
Definition transpose (m : ndarray2) : ndarray2 :=
  map (fun j => column j m) (seq 0 (shape1 m)).

(** [a - b] on one-dimensional arrays, with numpy's broadcasting of a
    one-element operand. *)
Definition np_sub (a b : ndarray1) : result ndarray1 :=
  if decide (length a = length b) then Ok (zip_with num_sub a b)
  else match a, b with
       | [x], _ => Ok (map (num_sub x) b)
       | _, [y] => Ok (map (fun x => num_sub x y) a)
       | _, _ => Raise ValueError
       end.

(** [x -= b] on the rows of a two-dimensional array: the result keeps the
    shape of [x], so only [b] may be broadcast. *)
Definition np_isub_row (row b : ndarray1) : result ndarray1 :=
  if decide (length row = length b) then Ok (zip_with num_sub row b)
  else match b with
       | [y] => Ok (map (fun x => num_sub x y) row)
       | _ => Raise ValueError
       end.

Definition np_isub (x : ndarray2) (b : ndarray1) : result ndarray2 :=
  mapM (fun row => np_isub_row row b) x.

(** The sum of the entrywise products. *)
Definition inner (a b : ndarray1) : num :=
  foldl num_add num_zero (zip_with num_mul a b).

(** [numpy.dot(v, m)] for a vector and a matrix. *)
Definition dot_vm (v : ndarray1) (m : ndarray2) : result ndarray1 :=
  if decide (length v = length m)
  then Ok (map (fun j => inner v (column j m)) (seq 0 (shape1 m)))
  else Raise ValueError.

(** [numpy.dot(a, b)] for two matrices. *)
Definition dot (a b : ndarray2) : result ndarray2 :=
  mapM (fun row => dot_vm row b) a.

(** [b = numpy.zeros(z.shape, dtype=numpy.uint8); b[z >= 0] = 1] *)
Definition threshold (z : ndarray1) : list bool :=
  map (fun e => num_ge e num_zero) z.

(** [ux = numpy.ones(z.shape) * (-1); ux[z >= 0] = 1] *)
Definition binarize (z : ndarray2) : ndarray2 :=
  map (map (fun e => if num_ge e num_zero then num_one
                     else num_mul num_one (num_opp num_one))) z.
End Arrays.

(** ** smqtk.utils *)

Module bit_utils.

(** Modelled from the spec: [smqtk.utils.bit_utils.bit_vector_to_int] is
    not among the sources at hand.  The bits are packed
    most-significant-first, the bit at index 0 being the most significant
    one. *)
Definition bit_vector_to_int (v : list bool) : Z :=
  foldl (fun c b => 2 * c + Z.b2z b) 0 v.

End bit_utils.

Module distance_functions.

Fixpoint popcount_pos (p : positive) : Z :=
  match p with
  | xH => 1
  | xO p' => popcount_pos p'
  | xI p' => 1 + popcount_pos p'
  end.

Definition popcount (z : Z) : Z :=
  match z with
  | Z0 => 0
  | Zpos p => popcount_pos p
  | Zneg p => popcount_pos p
  end.

(** Modelled from the spec: [smqtk.utils.distance_functions] is not part
    of the sources at hand.  The Hamming distance is the number of
    differing bits of two codes. *)
Definition hamming_distance (i j : Z) : Z := popcount (Z.lxor i j).

(** The real-valued metrics of the same module, taken as they come. *)
Class DistanceFunctions `{Numpy} : Type := {
  euclidean_distance : list num -> list num -> num;
  cosine_similarity : list num -> list num -> num;
  histogram_intersection_distance : list num -> list num -> num;
}.

End distance_functions.
Export distance_functions.

(** ** Descriptors and the code index *)

(** A [DescriptorElement]: an identifier and the vector it carries. *)
Record DescriptorElement `{Numpy} : Type := {
  uuid : Z;
  vector : list num;
}.

Module CodeIndex.

(** The code index classes ([smqtk.similarity_index.lsh.code_index]) are
    not among the sources at hand; the in-memory index is a table from a
    small code to the descriptors sharing it, in the order they were
    added. *)
Abbreviation t := (gmap Z (list DescriptorElement)).

Section CodeIndex.
Context `{Numpy}.

(** Modelled from the spec: a new in-memory code index holds nothing. *)
Definition empty : t := ∅.

(** Modelled from the spec: one descriptor joins the bucket of its code. *)
Definition add_descriptor (ci : t) (code : Z) (d : DescriptorElement) : t :=
  <[code := default [] (ci !! code) ++ [d]]> ci.

(** Modelled from the spec: [add_many_descriptors(iterable of (code,
    descriptor))], the bulk load. *)
Definition add_many_descriptors
    (ci : t) (l : list (Z * DescriptorElement)) : t :=
  foldl (fun acc cd => add_descriptor acc cd.1 cd.2) ci l.

(** Modelled from the spec: [codes()], the distinct codes currently
    populated. *)
Definition codes (ci : t) : list Z := elements (dom ci).

(** Modelled from the spec: [get_descriptors(code)], all descriptors
    sharing that code. *)
Definition get_descriptors (ci : t) (code : Z) : list DescriptorElement :=
  default [] (ci !! code).

(** Modelled from the spec: [count()], the total number of descriptors
    across all codes. *)
Definition count (ci : t) : Z :=
  Z.of_nat (sum_list_with (fun kb => length kb.2) (map_to_list ci)).

(** Every code of the table has a descriptor, as the table is filled by
    adding descriptors only. *)
Definition populated (ci : t) : bool :=
  forallb (fun kb => negb (Nat.eqb (length kb.2) 0)) (map_to_list ci).

(** The descriptors of all buckets. *)
Definition all_descriptors (ci : t) : list DescriptorElement :=
  concat (map_to_list ci).*2.

(** Modelled from the spec: the truth value of a code index in a
    condition.  A class that defines [__len__] as [count()] is false when
    empty; a class that defines neither [__len__] nor [__nonzero__] is
    always true. *)
Definition truth (defines_len : bool) (ci : t) : bool :=
  if defines_len then negb (count ci =? 0) else true.

End CodeIndex.
End CodeIndex.

(** ** The index factory

    [index_factory] is a callable of the caller's.  A call returns a code
    index object: one made for the call, or one that the caller keeps,
    such as an index shared between the calls or a persistent one.  The
    objects that the caller keeps are the store, an object being named by
    its position in it; the callable may change the store.  What is added
    to an object of the store stays in the store. *)
Section IndexFactory.
Context `{Numpy}.

Definition Store : Type := list CodeIndex.t.

Inductive FactoryResult : Type :=
  | NewIndex (ci : CodeIndex.t)
  | KeptIndex (i : nat).

Definition IndexFactory : Type := Store -> FactoryResult * Store.

(** The content of a returned object.  A position beyond the store names
    no object that is kept: the index is then as new. *)
Definition content_of (r : FactoryResult) (st : Store) : CodeIndex.t :=
  match r with
  | NewIndex ci => ci
  | KeptIndex i => default CodeIndex.empty (st !! i)
  end.

(** The store once the returned object has been given the content [ci] in
    place. *)
Definition filled (r : FactoryResult) (ci : CodeIndex.t) (st : Store)
  : Store :=
  match r with
  | NewIndex _ => st
  | KeptIndex i => <[i := ci]> st
  end.

(** The content of the object that a call of the factory returns. *)
Definition handed_out (f : IndexFactory) (st : Store) : CodeIndex.t :=
  content_of (f st).1 (f st).2.

(** The default [index_factory], [lambda: MemoryCodeIndex()]. *)
Definition default_index_factory : IndexFactory :=
  fun st => (NewIndex CodeIndex.empty, st).


End IndexFactory.

(** ** The index *)

Section ITQSimilarityIndex.
Context `{DistanceFunctions}.
(** Whether the code index class defines [__len__]. *)
Context (code_index_defines_len : bool).

Record ITQSimilarityIndex : Type := {
  _save_file : string;
  _bit_len : Z;
  _itq_iter_num : Z;
  _rand_seed : option Z;
  _mean_vector : option ndarray1;
  _r : option ndarray2;
  _index_factory : IndexFactory;
  _code_index : option CodeIndex.t;
  _dist_method : string;
  _dist_func : ndarray1 -> ndarray1 -> num;
}.

Definition set_mean_vector (v : option ndarray1) (self : ITQSimilarityIndex)
  : ITQSimilarityIndex :=
  {| _save_file := _save_file self; _bit_len := _bit_len self;
     _itq_iter_num := _itq_iter_num self; _rand_seed := _rand_seed self;
     _mean_vector := v; _r := _r self;
     _index_factory := _index_factory self;
     _code_index := _code_index self; _dist_method := _dist_method self;
     _dist_func := _dist_func self |}.

Definition set_r (v : option ndarray2) (self : ITQSimilarityIndex)
  : ITQSimilarityIndex :=
  {| _save_file := _save_file self; _bit_len := _bit_len self;
     _itq_iter_num := _itq_iter_num self; _rand_seed := _rand_seed self;
     _mean_vector := _mean_vector self; _r := v;
     _index_factory := _index_factory self;
     _code_index := _code_index self; _dist_method := _dist_method self;
     _dist_func := _dist_func self |}.

Definition set_code_index (v : option CodeIndex.t) (self : ITQSimilarityIndex)
  : ITQSimilarityIndex :=
  {| _save_file := _save_file self; _bit_len := _bit_len self;
     _itq_iter_num := _itq_iter_num self; _rand_seed := _rand_seed self;
     _mean_vector := _mean_vector self; _r := _r self;
     _index_factory := _index_factory self;
     _code_index := v; _dist_method := _dist_method self;
     _dist_func := _dist_func self |}.

Definition set_bit_len (v : Z) (self : ITQSimilarityIndex)
  : ITQSimilarityIndex :=
  {| _save_file := _save_file self; _bit_len := v;
     _itq_iter_num := _itq_iter_num self; _rand_seed := _rand_seed self;
     _mean_vector := _mean_vector self; _r := _r self;
     _index_factory := _index_factory self;
     _code_index := _code_index self; _dist_method := _dist_method self;
     _dist_func := _dist_func self |}.

Definition set_itq_iter_num (v : Z) (self : ITQSimilarityIndex)
  : ITQSimilarityIndex :=
  {| _save_file := _save_file self; _bit_len := _bit_len self;
     _itq_iter_num := v; _rand_seed := _rand_seed self;
     _mean_vector := _mean_vector self; _r := _r self;
     _index_factory := _index_factory self;
     _code_index := _code_index self; _dist_method := _dist_method self;
     _dist_func := _dist_func self |}.

Definition set_rand_seed (v : option Z) (self : ITQSimilarityIndex)
  : ITQSimilarityIndex :=
  {| _save_file := _save_file self; _bit_len := _bit_len self;
     _itq_iter_num := _itq_iter_num self; _rand_seed := v;
     _mean_vector := _mean_vector self; _r := _r self;
     _index_factory := _index_factory self;
     _code_index := _code_index self; _dist_method := _dist_method self;
     _dist_func := _dist_func self |}.

Definition set_dist_method (v : string) (self : ITQSimilarityIndex)
  : ITQSimilarityIndex :=
  {| _save_file := _save_file self; _bit_len := _bit_len self;
     _itq_iter_num := _itq_iter_num self; _rand_seed := _rand_seed self;
     _mean_vector := _mean_vector self; _r := _r self;
     _index_factory := _index_factory self;
     _code_index := _code_index self; _dist_method := v;
     _dist_func := _dist_func self |}.

Definition set_dist_func (v : ndarray1 -> ndarray1 -> num)
    (self : ITQSimilarityIndex) : ITQSimilarityIndex :=
  {| _save_file := _save_file self; _bit_len := _bit_len self;
     _itq_iter_num := _itq_iter_num self; _rand_seed := _rand_seed self;
     _mean_vector := _mean_vector self; _r := _r self;
     _index_factory := _index_factory self;
     _code_index := _code_index self; _dist_method := _dist_method self;
     _dist_func := v |}.

(** [_get_dist_func(distance_method)] *)
Definition _get_dist_func (distance_method : string)
  : result (ndarray1 -> ndarray1 -> num) :=
  if decide (distance_method = "euclidean") then Ok euclidean_distance
  else if decide (distance_method = "cosine")
  then Ok (fun i j => num_sub num_one (cosine_similarity i j))
  else if decide (distance_method = "hik")
  then Ok histogram_intersection_distance
  else Raise ValueError.

(** [__init__(index_factory, bit_length, itq_iterations, distance_method,
    random_seed)] *)
Definition __init__ (index_factory : IndexFactory)
    (bit_length itq_iterations : Z) (distance_method : string)
    (random_seed : option Z) : result ITQSimilarityIndex :=
  if negb (bit_length >? 0) then Raise AssertionError
  else if negb (itq_iterations >? 0) then Raise AssertionError
  else
    dist_func ← _get_dist_func distance_method;
    Ok {| _save_file := "itq_index.pickle";
          _bit_len := bit_length;
          _itq_iter_num := itq_iterations;
          _rand_seed := random_seed;
          _mean_vector := None;
          _r := None;
          _index_factory := index_factory;
          _code_index := None;
          _dist_method := distance_method;
          _dist_func := dist_func |}.

(** *** Methods that change the instance

    A method that assigns attributes runs on the instance, on the state
    of [numpy.random] and on the code indexes that the caller keeps; what
    it has assigned before an exception stays assigned. *)
Record World : Type := {
  w_self : ITQSimilarityIndex;
  w_random : RandomState;
  w_store : Store;
}.

Definition Py (A : Type) : Type := World -> World * result A.

Definition py_ret {A} (a : A) : Py A := fun w => (w, Ok a).

Definition py_bind {A B} (m : Py A) (k : A -> Py B) : Py B := fun w =>
  match m w with
  | (w', Ok a) => k a w'
  | (w', Raise e) => (w', Raise e)
  end.

Definition py_lift {A} (r : result A) : Py A := fun w => (w, r).

Definition py_raise {A} (e : exn) : Py A := fun w => (w, Raise e).

Definition get_self : Py ITQSimilarityIndex := fun w => (w, Ok (w_self w)).

Definition assign (f : ITQSimilarityIndex -> ITQSimilarityIndex) : Py unit :=
  fun w => ({| w_self := f (w_self w); w_random := w_random w;
               w_store := w_store w |}, Ok tt).

Notation "'let!' x ':=' m 'in' k" := (py_bind m (fun x => k))
  (at level 10, x pattern, m at level 100, k at level 200).
Notation "m ';;' k" := (py_bind m (fun _ => k))
  (at level 100, k at level 200, right associativity).

(** [numpy.random.seed(s)]: a seed has to fit in 32 unsigned bits. *)
Definition numpy_random_seed (s : Z) : Py unit := fun w =>
  if (0 <=? s) && (s <? 2 ^ 32)
  then ({| w_self := w_self w; w_random := seeded s;
           w_store := w_store w |}, Ok tt)
  else (w, Raise ValueError).

(** [numpy.random.randn(r, c)] draws from the global state. *)
Definition numpy_random_randn (r c : nat) : Py ndarray2 := fun w =>
  let '(m, g) := randn r c (w_random w) in
  ({| w_self := w_self w; w_random := g; w_store := w_store w |}, Ok m).

(** One pass of the loop of [_find_itq_rotation]. *)
Definition itq_iteration (v r : ndarray2) : result ndarray2 :=
  z ← dot v r;
  let ux := binarize z in
  c ← dot (transpose ux) v;
  '(ub, sigma, ua) ← linalg_svd c;
  dot ua (transpose ub).

Fixpoint itq_loop (n : nat) (v r : ndarray2) : result ndarray2 :=
  match n with
  | O => Ok r
  | S n' => r' ← itq_iteration v r; itq_loop n' v r'
  end.

(** [_find_itq_rotation(v, n_iter)] *)
Definition _find_itq_rotation (v : ndarray2) (n_iter : Z)
  : Py (list (list bool) * ndarray2) :=
  let bit := shape1 v in
  let! r := numpy_random_randn bit bit in
  let! (u11, s2, v2) := py_lift (linalg_svd r) in
  let r := map (take bit) u11 in
  let! r := py_lift (itq_loop (Z.to_nat n_iter) v r) in
  let! z := py_lift (dot v r) in
  let b := map threshold z in
  py_ret (b, r).

(** The generator handed to [add_many_descriptors]:
    [(bit_vector_to_int(c[i]), descr_cache[i]) for i in
    xrange(c.shape[0])], as far as it gets. *)
Fixpoint code_descriptor_pairs (i : nat) (c : list (list bool))
    (descr_cache : list DescriptorElement)
  : list (Z * DescriptorElement) * result unit :=
  match c with
  | [] => ([], Ok tt)
  | row :: c' =>
      match descr_cache !! i with
      | None => ([], Raise IndexError)
      | Some d =>
          let '(l, r) := code_descriptor_pairs (S i) c' descr_cache in
          ((bit_utils.bit_vector_to_int row, d) :: l, r)
      end
  end.

(** [self._index_factory()]: the content of the object returned, and the
    object. *)
Definition call_index_factory (f : IndexFactory)
  : Py (CodeIndex.t * FactoryResult) := fun w =>
  let '(r, st) := f (w_store w) in
  ({| w_self := w_self w; w_random := w_random w; w_store := st |},
   Ok (content_of r st, r)).

(** [self._code_index.add_many_descriptors(pairs)] on the object that the
    factory has just returned: the instance sees the content added, and so
    does the store when the object is one of its own. *)
Definition add_many_descriptors_in_place
    (handed : CodeIndex.t * FactoryResult)
    (pairs : list (Z * DescriptorElement)) : Py unit := fun w =>
  let ci := CodeIndex.add_many_descriptors handed.1 pairs in
  ({| w_self := set_code_index (Some ci) (w_self w);
      w_random := w_random w;
      w_store := filled handed.2 ci (w_store w) |}, Ok tt).

(** The truth value of [self._rand_seed] in [if self._rand_seed:]. *)
Definition rand_seed_truth (rand_seed : option Z) : bool :=
  match rand_seed with
  | None => false
  | Some s => negb (s =? 0)
  end.

(** [build_index(descriptors)] *)
Definition build_index (descriptors : list DescriptorElement) : Py unit :=
  let! self := get_self in
  (if rand_seed_truth (_rand_seed self)
   then numpy_random_seed (default 0 (_rand_seed self))
   else py_ret tt) ;;
  let descr_cache := descriptors in
  let x := map vector descriptors in
  (if decide (x = []) then py_raise ValueError else py_ret tt) ;;
  let! mean_vector := py_lift (np_mean x) in
  assign (set_mean_vector (Some mean_vector)) ;;
  let! x := py_lift (np_isub x mean_vector) in
  let! c := py_lift (np_cov (transpose x)) in
  let! (l, pc) := py_lift (linalg_eig c) in
  let top_pairs :=
    py_slice_to (_bit_len self) (sorted num_lt fst true (zip l (transpose pc)))
  in
  let pc_top := transpose (map snd top_pairs) in
  let! xx := py_lift (dot x pc_top) in
  let! (c, r) := _find_itq_rotation xx (_itq_iter_num self) in
  assign (set_r (Some r)) ;;
  let! r := py_lift (dot pc_top r) in
  assign (set_r (Some r)) ;;
  let! handed := call_index_factory (_index_factory self) in
  assign (set_code_index (Some handed.1)) ;;
  let '(pairs, outcome) := code_descriptor_pairs 0 c descr_cache in
  add_many_descriptors_in_place handed pairs ;;
  py_lift outcome.

(** What no method but [load_index] assigns. *)
Definition same_configuration (self self' : ITQSimilarityIndex) : Prop :=
  _save_file self' = _save_file self /\
  _bit_len self' = _bit_len self /\
  _itq_iter_num self' = _itq_iter_num self /\
  _rand_seed self' = _rand_seed self /\
  _index_factory self' = _index_factory self /\
  _dist_method self' = _dist_method self /\
  _dist_func self' = _dist_func self.

(** *** Saved states *)

(** The dictionary that [save_index] pickles; a key may be missing from
    the dictionary found in a file. *)
Record saved_state : Type := {
  state_bit_len : option Z;
  state_itq_iter : option Z;
  state_rand_seed : option (option Z);
  state_mean_vector : option (option ndarray1);
  state_rotation : option (option ndarray2);
  state_code_index : option (option CodeIndex.t);
  state_distance_method : option string;
}.

Inductive file_content : Type :=
  | NotAPickle
  | Pickled (state : saved_state).

Inductive fs_entry : Type :=
  | Directory
  | UnreadableFile
  | RegularFile (content : file_content).

(** [state[key]] *)
Definition getitem {A} (v : option A) : Py A :=
  py_lift (from_option Ok (Raise KeyError) v).

(** [load_index(dir_path)], on a file system [fs]. *)
Definition load_index (fs : gmap string fs_entry) (dir_path : string)
  : Py unit :=
  let! self := get_self in
  let save_file := osp_join dir_path (_save_file self) in
  match fs !! save_file with
  | None | Some Directory => py_raise SimilarityIndexStateLoadError
  | Some UnreadableFile => py_raise IOError
  | Some (RegularFile NotAPickle) => py_raise UnpicklingError
  | Some (RegularFile (Pickled state)) =>
      let! v := getitem (state_bit_len state) in
      assign (set_bit_len v) ;;
      let! v := getitem (state_itq_iter state) in
      assign (set_itq_iter_num v) ;;
      let! v := getitem (state_rand_seed state) in
      assign (set_rand_seed v) ;;
      let! v := getitem (state_mean_vector state) in
      assign (set_mean_vector v) ;;
      let! v := getitem (state_rotation state) in
      assign (set_r v) ;;
      let! v := getitem (state_code_index state) in
      assign (set_code_index v) ;;
      let! v := getitem (state_distance_method state) in
      assign (set_dist_method v) ;;
      let! f := py_lift (_get_dist_func v) in
      assign (set_dist_func f)
  end.

(** The values of a saved state that has every key. *)
Definition complete (state : saved_state)
  : option (Z * Z * option Z * option ndarray1 * option ndarray2
            * option CodeIndex.t * string) :=
  match state_bit_len state, state_itq_iter state, state_rand_seed state,
        state_mean_vector state, state_rotation state,
        state_code_index state, state_distance_method state with
  | Some b, Some it, Some seed, Some mu, Some r, Some ci, Some dm =>
      Some (b, it, seed, mu, r, ci, dm)
  | _, _, _, _, _, _, _ => None
  end.

(** *** Methods that only read the instance *)

(** [count()] *)
Definition count (self : ITQSimilarityIndex) : Z :=
  match _code_index self with
  | Some ci =>
      if CodeIndex.truth code_index_defines_len ci then CodeIndex.count ci
      else 0
  | None => 0
  end.

(** [get_small_code(descriptor)] *)
Definition get_small_code (self : ITQSimilarityIndex) (descriptor : DescriptorElement)
  : result (ndarray1 * list bool * Z) :=
  let v := vector descriptor in
  mean_vector ← from_option Ok (Raise TypeError) (_mean_vector self);
  centered ← np_sub v mean_vector;
  r ← from_option Ok (Raise TypeError) (_r self);
  z ← dot_vm centered r;
  let b := threshold z in
  Ok (v, b, bit_utils.bit_vector_to_int b).

(** The loop of [nn] over the near codes: the buckets are appended one
    after the other and the loop is left once the neighbors reach the
    termination count. *)
Fixpoint collect_neighbors (ci : CodeIndex.t) (termination_count : Z)
    (near_codes : list Z) (neighbors : list DescriptorElement)
  : list DescriptorElement :=
  match near_codes with
  | [] => neighbors
  | nc :: near_codes' =>
      let neighbors := neighbors ++ CodeIndex.get_descriptors ci nc in
      if Z.of_nat (length neighbors) >=? termination_count then neighbors
      else collect_neighbors ci termination_count near_codes' neighbors
  end.

(** The buckets of the first [k] near codes, one after the other. *)
Definition buckets (ci : CodeIndex.t) (near : list Z) (k : nat)
  : list DescriptorElement :=
  concat (map (CodeIndex.get_descriptors ci) (take k near)).

(** The near codes of a probe code: [heapq.nsmallest] over [codes()] by
    Hamming distance. *)
Definition near_codes_of (ci : CodeIndex.t) (d_sc n : Z) : list Z :=
  nsmallest n (CodeIndex.codes ci) (fun e => hamming_distance d_sc e).

(** The first half of [nn]: the neighbors collected from the buckets of
    the near codes. *)
Definition candidates (self : ITQSimilarityIndex) (ci : CodeIndex.t)
    (d_sc n : Z) : list DescriptorElement :=
  let near_codes := near_codes_of ci d_sc n in
  let termination_count := Z.min n (count self) in
  collect_neighbors ci termination_count near_codes [].

(** The second half of [nn]: the exact distances, the ranking and the
    cut. *)
Definition rank_neighbors (self : ITQSimilarityIndex) (d_vec : ndarray1)
    (n : Z) (neighbors : list DescriptorElement)
  : result (list DescriptorElement * list num) :=
  let distances :=
    map (fun d_elem => _dist_func self d_vec (vector d_elem)) neighbors in
  let ordered := sorted num_lt fst false (zip distances neighbors) in
  '(distances, neighbors) ← unzip_pairs ordered;
  Ok (py_slice_to n neighbors, py_slice_to n distances).

(** [nn(d, n)] *)
Definition nn (self : ITQSimilarityIndex) (d : DescriptorElement) (n : Z)
  : result (list DescriptorElement * list num) :=
  '(d_vec, _, d_sc) ← get_small_code self d;
  ci ← from_option Ok (Raise AttributeError) (_code_index self);
  let neighbors := candidates self ci d_sc n in
  rank_neighbors self d_vec n neighbors.

End ITQSimilarityIndex.

(** ** A small exact instance of the interfaces

    Integer arithmetic with a not-a-number value, and kernels that are
    exact on the matrices they accept: diagonal ones.  It serves to run the
    methods on concrete inputs. *)
Module Toy.

(** [None] is the not-a-number value. *)
Definition tnum : Type := option Z.

Definition lift2 (f : Z -> Z -> Z) (a b : tnum) : tnum :=
  match a, b with
  | Some x, Some y => Some (f x y)
  | _, _ => None
  end.

Definition tdiv (a b : tnum) : tnum :=
  match a, b with
  | Some x, Some y => if y =? 0 then None else Some (x / y)
  | _, _ => None
  end.

Definition tcmp (f : Z -> Z -> bool) (a b : tnum) : bool :=
  match a, b with
  | Some x, Some y => f x y
  | _, _ => false
  end.

Definition tsum (l : list tnum) : tnum := foldl (lift2 Z.add) (Some 0) l.

Definition tcolumn (j : nat) (m : list (list tnum)) : list tnum :=
  map (fun row => nth j row None) m.

Definition rectangular (m : list (list tnum)) : bool :=
  forallb (fun row => Nat.eqb (length row) (shape1 m)) m.

Definition finite (m : list (list tnum)) : bool :=
  forallb (forallb (fun e => bool_decide (is_Some e))) m.

Definition diagonal (m : list (list tnum)) : bool :=
  Nat.eqb (length m) (shape1 m) && rectangular m && negb (Nat.eqb (length m) 0)
  && forallb (fun i =>
       forallb (fun j =>
         Nat.eqb i j || bool_decide (nth j (nth i m []) None = Some 0))
         (seq 0 (length m)))
       (seq 0 (length m)).

Definition diag_entries (m : list (list tnum)) : list tnum :=
  imap (fun i row => nth i row None) m.

Definition diag_matrix (d : list tnum) : list (list tnum) :=
  imap (fun i e =>
    imap (fun j _ => if Nat.eqb i j then e else Some 0) d) d.

(** The mean of each column. *)
Definition toy_mean (x : list (list tnum)) : result (list tnum) :=
  if Nat.eqb (length x) 0 || negb (rectangular x) then Raise ValueError
  else Ok (map (fun j => tdiv (tsum (tcolumn j x)) (Some (Z.of_nat (length x))))
             (seq 0 (shape1 x))).

(** The covariance of the rows of [m], each row a variable and each
    column an observation: with a single observation the divisor is zero
    and every entry is not a number. *)
Definition toy_cov (m : list (list tnum)) : result (list (list tnum)) :=
  let n := Z.of_nat (shape1 m) in
  let centered :=
    map (fun row =>
           let mu := tdiv (tsum row) (Some n) in
           map (fun e => lift2 Z.sub e mu) row) m in
  Ok (map (fun ri =>
        map (fun rj => tdiv (tsum (zip_with (lift2 Z.mul) ri rj)) (Some (n - 1)))
            centered)
        centered).

(** Eigenvalues and eigenvectors of a diagonal matrix; an array with a
    not-a-number entry is refused, as numpy does. *)
Definition toy_eig (c : list (list tnum))
  : result (list tnum * list (list tnum)) :=
  if negb (finite c) then Raise LinAlgError
  else if diagonal c
  then Ok (diag_entries c, diag_matrix (map (fun _ => Some 1) c))
  else Raise LinAlgError.

Definition tsign (e : tnum) : tnum :=
  match e with
  | Some x => Some (if x <? 0 then -1 else 1)
  | None => None
  end.

Definition tabs (e : tnum) : tnum :=
  match e with
  | Some x => Some (Z.abs x)
  | None => None
  end.

(** A singular value decomposition [c = u * diag(s) * v] of a diagonal
    matrix: the signs go to [u], and [v] is the identity. *)
Definition toy_svd (c : list (list tnum))
  : result (list (list tnum) * list tnum * list (list tnum)) :=
  if negb (finite c) then Raise LinAlgError
  else if diagonal c
  then Ok (diag_matrix (map tsign (diag_entries c)),
           map tabs (diag_entries c),
           diag_matrix (map (fun _ => Some 1) c))
  else Raise LinAlgError.

(** A generator of diagonal sign matrices: entry [i] of the diagonal is
    negative when bit [i] of the state is set; the state then moves on. *)
Definition toy_randn (r c : nat) (g : Z) : list (list tnum) * Z :=
  (map (fun i =>
     map (fun j =>
       if Nat.eqb i j
       then Some (if Z.testbit g (Z.of_nat i) then -1 else 1)
       else Some 0) (seq 0 c)) (seq 0 r),
   g + 1).

#[export] Instance toy_numpy : Numpy := {|
  num := tnum;
  num_zero := Some 0;
  num_one := Some 1;
  num_add := lift2 Z.add;
  num_sub := lift2 Z.sub;
  num_mul := lift2 Z.mul;
  num_opp := fun a => lift2 Z.sub (Some 0) a;
  num_ge := tcmp Z.geb;
  num_lt := tcmp Z.ltb;
  RandomState := Z;
  seeded := fun s => s;
  randn := toy_randn;
  np_mean := toy_mean;
  np_cov := toy_cov;
  linalg_eig := toy_eig;
  linalg_svd := toy_svd;
|}.

(** The squared Euclidean distance, the plain inner product and the sum of
    absolute differences stand in for the three metrics. *)
#[export] Instance toy_distances : DistanceFunctions := {|
  euclidean_distance := fun a b =>
    tsum (zip_with (fun x y => lift2 Z.mul (lift2 Z.sub x y) (lift2 Z.sub x y)) a b);
  cosine_similarity := fun a b => tsum (zip_with (lift2 Z.mul) a b);
  histogram_intersection_distance := fun a b =>
    tsum (zip_with (fun x y => tabs (lift2 Z.sub x y)) a b);
|}.

Definition descr (id : Z) (v : list Z) : DescriptorElement :=
  {| uuid := id; vector := map Some v |}.

(** Four descriptors on the two axes, centered at the origin. *)
Definition corpus : list DescriptorElement :=
  [descr 1 [3; 0]; descr 2 [-3; 0]; descr 3 [0; 6]; descr 4 [0; -6]].

(** [ITQSimilarityIndex(bit_length=2, itq_iterations=3,
    distance_method="euclidean", random_seed=seed)] *)
Definition new_index (seed : option Z) : result ITQSimilarityIndex :=
  __init__ default_index_factory 2 3 "euclidean" seed.

Definition world (self : ITQSimilarityIndex) (g : Z) : World :=
  {| w_self := self; w_random := g; w_store := [] |}.

(** The instance that [new_index seed] constructs. *)
Definition fresh (seed : option Z) : ITQSimilarityIndex :=
  {| _save_file := "itq_index.pickle";
     _bit_len := 2;
     _itq_iter_num := 3;
     _rand_seed := seed;
     _mean_vector := None;
     _r := None;
     _index_factory := default_index_factory;
     _code_index := None;
     _dist_method := "euclidean";
     _dist_func := euclidean_distance |}.

(** An index trained on the corpus with seed 7. *)
Definition trained : ITQSimilarityIndex :=
  w_self (build_index corpus (world (fresh (Some 7)) 0)).1.

Definition trained_code_index : CodeIndex.t :=
  default CodeIndex.empty (_code_index trained).

(** The same trained index with a code index that holds nothing. *)
Definition emptied : ITQSimilarityIndex :=
  set_code_index (Some CodeIndex.empty) trained.

Definition probe : DescriptorElement := descr 9 [2; 1].

(** A saved state that claims 8 bits next to a three-dimensional mean and
    a two-by-two rotation. *)
Definition mismatched_state : saved_state :=
  {| state_bit_len := Some 8;
     state_itq_iter := Some 3;
     state_rand_seed := Some None;
     state_mean_vector := Some (Some [Some 0; Some 0; Some 0]);
     state_rotation := Some (Some [[Some 1; Some 0]; [Some 0; Some 1]]);
     state_code_index := Some (Some CodeIndex.empty);
     state_distance_method := Some "euclidean" |}.

Definition fs_unreadable : gmap string fs_entry :=
  {[ "idx/itq_index.pickle" := UnreadableFile ]}.

Definition fs_not_a_pickle : gmap string fs_entry :=
  {[ "idx/itq_index.pickle" := RegularFile NotAPickle ]}.

Definition fs_mismatched : gmap string fs_entry :=
  {[ "idx/itq_index.pickle" := RegularFile (Pickled mismatched_state) ]}.

(** [ITQSimilarityIndex(bit_length=4, itq_iterations=3,
    distance_method="euclidean", random_seed=7)], as constructed, and as
    trained on the corpus. *)
Definition fresh_wide : ITQSimilarityIndex :=
  {| _save_file := "itq_index.pickle";
     _bit_len := 4;
     _itq_iter_num := 3;
     _rand_seed := Some 7;
     _mean_vector := None;
     _r := None;
     _index_factory := default_index_factory;
     _code_index := None;
     _dist_method := "euclidean";
     _dist_func := euclidean_distance |}.

Definition trained_wide : ITQSimilarityIndex :=
  w_self (build_index corpus (world fresh_wide 0)).1.



(** The saved state of the trained index under a distance label that is
    none of the three. *)
Definition mislabelled_state : saved_state :=
  {| state_bit_len := Some 2;
     state_itq_iter := Some 3;
     state_rand_seed := Some (Some 7);
     state_mean_vector := Some (_mean_vector trained);
     state_rotation := Some (_r trained);
     state_code_index := Some (_code_index trained);
     state_distance_method := Some "manhattan" |}.

Definition fs_mislabelled : gmap string fs_entry :=
  {[ "idx/itq_index.pickle" := RegularFile (Pickled mislabelled_state) ]}.

End Toy.

(** ** The cosine distance on the same numbers

    [Toy] with the cosine similarity as [smqtk.utils.distance_functions]
    computes it, the inner product over the product of the norms; the
    integer square root makes it exact on vectors along an axis.  A vector
    of zeros has norm zero and its similarity to anything is the quotient
    of zero by zero, not a number. *)
Module Cosine.
Import Toy.

Definition tnorm (a : list tnum) : tnum :=
  match tsum (zip_with (lift2 Z.mul) a a) with
  | Some s => Some (Z.sqrt s)
  | None => None
  end.

#[export] Instance cosine_distances : DistanceFunctions := {|
  euclidean_distance := euclidean_distance (DistanceFunctions := toy_distances);
  cosine_similarity := fun a b =>
    tdiv (tsum (zip_with (lift2 Z.mul) a b)) (lift2 Z.mul (tnorm a) (tnorm b));
  histogram_intersection_distance :=
    histogram_intersection_distance (DistanceFunctions := toy_distances);
|}.

(** Four descriptors on the two axes and one at the origin. *)
Definition corpus : list DescriptorElement :=
  [descr 1 [4; 0]; descr 2 [-4; 0]; descr 3 [0; 6]; descr 4 [0; 0];
   descr 5 [0; -6]].

Definition probe : DescriptorElement := descr 9 [1; 0].

(** [ITQSimilarityIndex(bit_length=2, itq_iterations=3, random_seed=7)],
    with the default distance, "cosine". *)
Definition fresh : ITQSimilarityIndex :=
  {| _save_file := "itq_index.pickle";
     _bit_len := 2;
     _itq_iter_num := 3;
     _rand_seed := Some 7;
     _mean_vector := None;
     _r := None;
     _index_factory := default_index_factory;
     _code_index := None;
     _dist_method := "cosine";
     _dist_func := fun i j => num_sub num_one (cosine_similarity i j) |}.

Definition trained : ITQSimilarityIndex :=
  w_self (build_index corpus
            {| w_self := fresh; w_random := 0; w_store := [] |}).1.

Definition trained_code_index : CodeIndex.t :=
  default CodeIndex.empty (_code_index trained).

End Cosine.

(** ** Saving to a file system *)

(** What [save_index] asks of the operating system:
    [smqtk.utils.safe_create_dir], which may leave directories behind even
    when it fails, and opening a file for writing. *)
Class FileSystem `{Numpy} : Type := {
  safe_create_dir :
    gmap string fs_entry -> string -> gmap string fs_entry * result unit;
  open_wb : gmap string fs_entry -> string -> result unit;
}.

Section Saving.
Context `{DistanceFunctions} `{!FileSystem}.

(** The dictionary that [save_index] builds from the instance. *)
Definition state_of (self : ITQSimilarityIndex) : saved_state :=
  {| state_bit_len := Some (_bit_len self);
     state_itq_iter := Some (_itq_iter_num self);
     state_rand_seed := Some (_rand_seed self);
     state_mean_vector := Some (_mean_vector self);
     state_rotation := Some (_r self);
     state_code_index := Some (_code_index self);
     state_distance_method := Some (_dist_method self) |}.

(** [save_index(dir_path)], on a file system [fs]: the file system it
    leaves and the outcome.  The file that was written can be read. *)
Definition save_index (fs : gmap string fs_entry) (dir_path : string)
    (self : ITQSimilarityIndex) : gmap string fs_entry * result unit :=
  match _r self with
  | None => (fs, Raise SimilarityIndexStateSaveError)
  | Some _ =>
      let state := state_of self in
      match safe_create_dir fs dir_path with
      | (fs, Raise e) => (fs, Raise e)
      | (fs, Ok _) =>
          let save_file := osp_join dir_path (_save_file self) in
          match open_wb fs save_file with
          | Raise e => (fs, Raise e)
          | Ok _ => (<[save_file := RegularFile (Pickled state)]> fs, Ok tt)
          end
      end
  end.

(** The distance function of the instance is the one its label names. *)
Definition dist_consistent (self : ITQSimilarityIndex) : Prop :=
  _get_dist_func (_dist_method self) = Ok (_dist_func self).

(** What the constructor checks or sets once and for all. *)
Definition well_configured (self : ITQSimilarityIndex) : Prop :=
  0 < _bit_len self /\
  0 < _itq_iter_num self /\
  _save_file self = "itq_index.pickle" /\
  dist_consistent self.

(** No training has left anything on the instance. *)
Definition untrained (self : ITQSimilarityIndex) : Prop :=
  _mean_vector self = None /\ _r self = None /\ _code_index self = None.

End Saving.

(** ** Training in stages

    The computations of [build_index] apart from its assignments. *)
Section Staged.
Context `{DistanceFunctions}.

(** [_find_itq_rotation] as a function of the random state. *)
Definition itq_rotation (v : ndarray2) (n_iter : Z) (g : RandomState)
  : RandomState * result (list (list bool) * ndarray2) :=
  let bit := shape1 v in
  let '(r, g') := randn bit bit g in
  (g',
   '(u11, s2, v2) ← linalg_svd r;
   let r := map (take bit) u11 in
   r ← itq_loop (Z.to_nat n_iter) v r;
   z ← dot v r;
   Ok (map threshold z, r)).

(** The state of [numpy.random] after the seeding step of [build_index]. *)
Definition seed_step (rand_seed : option Z) (g : RandomState)
  : result RandomState :=
  if rand_seed_truth rand_seed
  then (if (0 <=? default 0 rand_seed) && (default 0 rand_seed <? 2 ^ 32)
        then Ok (seeded (default 0 rand_seed))
        else Raise ValueError)
  else Ok g.

(** The principal directions kept and the data projected on them. *)
Definition pca (bit_len : Z) (x : ndarray2) : result (ndarray2 * ndarray2) :=
  c ← np_cov (transpose x);
  '(l, pc) ← linalg_eig c;
  let top_pairs :=
    py_slice_to bit_len (sorted num_lt fst true (zip l (transpose pc))) in
  let pc_top := transpose (map snd top_pairs) in
  xx ← dot x pc_top;
  Ok (pc_top, xx).

(** The instance with the three trained attributes replaced. *)
Definition with_trained (self : ITQSimilarityIndex)
    (mean_vector : option ndarray1) (r : option ndarray2)
    (code_index : option CodeIndex.t) : ITQSimilarityIndex :=
  {| _save_file := _save_file self; _bit_len := _bit_len self;
     _itq_iter_num := _itq_iter_num self; _rand_seed := _rand_seed self;
     _mean_vector := mean_vector; _r := r;
     _index_factory := _index_factory self;
     _code_index := code_index; _dist_method := _dist_method self;
     _dist_func := _dist_func self |}.

(** The assignments of [load_index] from the dictionary found in the
    file, as far as they get. *)
Definition install_state (state : saved_state) (self : ITQSimilarityIndex)
  : ITQSimilarityIndex * result unit :=
  match state_bit_len state with
  | None => (self, Raise KeyError)
  | Some b =>
  let self := set_bit_len b self in
  match state_itq_iter state with
  | None => (self, Raise KeyError)
  | Some it =>
  let self := set_itq_iter_num it self in
  match state_rand_seed state with
  | None => (self, Raise KeyError)
  | Some seed =>
  let self := set_rand_seed seed self in
  match state_mean_vector state with
  | None => (self, Raise KeyError)
  | Some mu =>
  let self := set_mean_vector mu self in
  match state_rotation state with
  | None => (self, Raise KeyError)
  | Some r =>
  let self := set_r r self in
  match state_code_index state with
  | None => (self, Raise KeyError)
  | Some ci =>
  let self := set_code_index ci self in
  match state_distance_method state with
  | None => (self, Raise KeyError)
  | Some dm =>
  let self := set_dist_method dm self in
  match _get_dist_func dm with
  | Raise e => (self, Raise e)
  | Ok f => (set_dist_func f self, Ok tt)
  end end end end end end end end.

(** The code index that [load_index] assigns from a dictionary: the one
    under its key, when the five keys read before it are there. *)
Definition assigned_code_index (state : saved_state)
  : option (option CodeIndex.t) :=
  match state_bit_len state, state_itq_iter state, state_rand_seed state,
        state_mean_vector state, state_rotation state with
  | Some _, Some _, Some _, Some _, Some _ => state_code_index state
  | _, _, _, _, _ => None
  end.

(** [build_index] with its computations named: each failure leaves what
    had been assigned by then. *)
Definition build_index_staged (descriptors : list DescriptorElement)
    (self : ITQSimilarityIndex) (g : RandomState) (st : Store)
  : World * result unit :=
  match seed_step (_rand_seed self) g with
  | Raise e => ({| w_self := self; w_random := g; w_store := st |}, Raise e)
  | Ok g1 =>
      let x := map vector descriptors in
      if decide (x = [])
      then ({| w_self := self; w_random := g1; w_store := st |},
            Raise ValueError)
      else
        match np_mean x with
        | Raise e =>
            ({| w_self := self; w_random := g1; w_store := st |}, Raise e)
        | Ok mu =>
            let self1 := set_mean_vector (Some mu) self in
            match x' ← np_isub x mu; pca (_bit_len self) x' with
            | Raise e =>
                ({| w_self := self1; w_random := g1; w_store := st |},
                 Raise e)
            | Ok (pc_top, xx) =>
                match itq_rotation xx (_itq_iter_num self) g1 with
                | (g2, Raise e) =>
                    ({| w_self := self1; w_random := g2; w_store := st |},
                     Raise e)
                | (g2, Ok (c, r)) =>
                    match dot pc_top r with
                    | Raise e =>
                        ({| w_self := set_r (Some r) self1; w_random := g2;
                            w_store := st |},
                         Raise e)
                    | Ok R =>
                        let handed := (_index_factory self st).1 in
                        let st1 := (_index_factory self st).2 in
                        let pairs := code_descriptor_pairs 0 c descriptors in
                        let ci :=
                          CodeIndex.add_many_descriptors
                            (content_of handed st1) pairs.1 in
                        ({| w_self :=
                              with_trained self (Some mu) (Some R) (Some ci);
                            w_random := g2;
                            w_store := filled handed ci st1 |},
                         pairs.2)
                    end
                end
            end
        end
  end.

(** An array of [r] rows and [c] columns. *)
Definition matrix (r c : nat) (m : ndarray2) : Prop :=
  length m = r /\ Forall (fun row => length row = c) m.

(** The shapes that numpy documents for the results of its kernels:
    [randn(r, c)] has [r] rows and [c] columns; the mean over the rows has
    an entry for each column; the covariance of [d >= 2] variables is
    square of order [d]; [eig] of a square matrix returns as many
    eigenvalues as the order and the eigenvectors as a square matrix; and
    [svd] returns square factors of the orders of the rows and of the
    columns. *)
Record kernel_shapes : Prop := {
  randn_shape : forall r c g, matrix r c (randn r c g).1;
  mean_shape : forall n d x mu,
    (0 < n)%nat -> matrix n d x -> np_mean x = Ok mu -> length mu = d;
  cov_shape : forall d n m c,
    (2 <= d)%nat -> matrix d n m -> np_cov m = Ok c -> matrix d d c;
  eig_shape : forall d c l pc,
    matrix d d c -> linalg_eig c = Ok (l, pc) ->
    length l = d /\ matrix d d pc;
  svd_shape : forall r c m u s v,
    (0 < r)%nat -> (0 < c)%nat -> matrix r c m ->
    linalg_svd m = Ok (u, s, v) -> matrix r r u /\ matrix c c v;
}.

End Staged.

(** ** An instance over the integers

    The kernels of [Toy] on integers: an outcome with a not-a-number entry
    has no integer form and is refused. *)
Module Exact.

Definition to_toy (m : list (list Z)) : list (list Toy.tnum) :=
  map (map Some) m.

Definition of_toy_row (row : list Toy.tnum) : result (list Z) :=
  mapM (fun e => from_option Ok (Raise LinAlgError) e) row.

Definition of_toy (m : list (list Toy.tnum)) : result (list (list Z)) :=
  mapM of_toy_row m.

#[export] Instance exact_numpy : Numpy := {|
  num := Z;
  num_zero := 0;
  num_one := 1;
  num_add := Z.add;
  num_sub := Z.sub;
  num_mul := Z.mul;
  num_opp := Z.opp;
  num_ge := Z.geb;
  num_lt := Z.ltb;
  RandomState := Z;
  seeded := fun s => s;
  randn := fun r c g =>
    (map (map (default 0)) (Toy.toy_randn r c g).1, (Toy.toy_randn r c g).2);
  np_mean := fun x => m ← Toy.toy_mean (to_toy x); of_toy_row m;
  np_cov := fun m => c ← Toy.toy_cov (to_toy m); of_toy c;
  linalg_eig := fun c =>
    '(l, pc) ← Toy.toy_eig (to_toy c);
    l ← of_toy_row l; pc ← of_toy pc; Ok (l, pc);
  linalg_svd := fun c =>
    '(u, s, v) ← Toy.toy_svd (to_toy c);
    u ← of_toy u; s ← of_toy_row s; v ← of_toy v; Ok (u, s, v);
|}.

(** The squared Euclidean distance, the plain inner product and the sum of
    absolute differences stand in for the three metrics. *)
#[export] Instance exact_distances : DistanceFunctions := {|
  euclidean_distance := fun a b =>
    foldl Z.add 0 (zip_with (fun x y => (x - y) * (x - y)) a b);
  cosine_similarity := fun a b => foldl Z.add 0 (zip_with Z.mul a b);
  histogram_intersection_distance := fun a b =>
    foldl Z.add 0 (zip_with (fun x y => Z.abs (x - y)) a b);
|}.

(** A file system in which every directory can be created and every path
    that is not a directory or an unreadable file can be written. *)
#[export] Instance plain_fs : FileSystem := {|
  safe_create_dir := fun fs d =>
    (match fs !! d with None => <[d := Directory]> fs | Some _ => fs end,
     Ok tt);
  open_wb := fun fs p =>
    match fs !! p with
    | Some Directory | Some UnreadableFile => Raise IOError
    | _ => Ok tt
    end;
|}.

Definition descr (id : Z) (v : list Z) : DescriptorElement :=
  {| uuid := id; vector := v |}.

Definition corpus : list DescriptorElement :=
  [descr 1 [3; 0]; descr 2 [-3; 0]; descr 3 [0; 6]; descr 4 [0; -6]].

(** [ITQSimilarityIndex(bit_length=2, itq_iterations=3,
    distance_method="euclidean", random_seed=seed)], as constructed. *)
Definition fresh (seed : option Z) : ITQSimilarityIndex :=
  {| _save_file := "itq_index.pickle";
     _bit_len := 2;
     _itq_iter_num := 3;
     _rand_seed := seed;
     _mean_vector := None;
     _r := None;
     _index_factory := default_index_factory;
     _code_index := None;
     _dist_method := "euclidean";
     _dist_func := euclidean_distance |}.

Definition world (self : ITQSimilarityIndex) (g : Z) : World :=
  {| w_self := self; w_random := g; w_store := [] |}.

(** The world after training on the corpus with seed 7. *)
Definition trained_world : World :=
  (build_index corpus (world (fresh (Some 7)) 0)).1.

Definition trained : ITQSimilarityIndex := w_self trained_world.

Definition trained_code_index : CodeIndex.t :=
  default CodeIndex.empty (_code_index trained).

Definition probe : DescriptorElement := descr 9 [2; 1].

(** The file system after [trained.save_index("idx")] on an empty one. *)
Definition saved_fs : gmap string fs_entry :=
  (save_index ∅ "idx" trained).1.

(** A saved state that lacks the rotation key. *)
Definition truncated_state : saved_state :=
  {| state_bit_len := Some 8;
     state_itq_iter := Some 5;
     state_rand_seed := Some (Some 1);
     state_mean_vector := Some (Some [1; 1]);
     state_rotation := None;
     state_code_index := Some (Some CodeIndex.empty);
     state_distance_method := Some "cosine" |}.

(** A complete saved state whose distance label is none of the three. *)
Definition mislabelled_state : saved_state :=
  {| state_bit_len := Some 8;
     state_itq_iter := Some 5;
     state_rand_seed := Some (Some 1);
     state_mean_vector := Some (Some [1; 1]);
     state_rotation := Some (Some [[1; 0]; [0; 1]]);
     state_code_index := Some (Some CodeIndex.empty);
     state_distance_method := Some "manhattan" |}.

Definition fs_truncated : gmap string fs_entry :=
  {[ "idx/itq_index.pickle" := RegularFile (Pickled truncated_state) ]}.

Definition fs_mislabelled : gmap string fs_entry :=
  {[ "idx/itq_index.pickle" := RegularFile (Pickled mislabelled_state) ]}.

End Exact.

(** * Properties *)

(** ** Results *)

Lemma mapM_result_length {A B} (f : A -> result B) (l : list A) (k : list B) :
  mapM f l = Ok k -> length k = length l.
Proof.
  revert k. induction l as [|a l IH]; intros k; simpl.
  - intros [= <-]. reflexivity.
  - destruct (f a) as [b|e]; simpl; [|discriminate].
    destruct (mapM f l) as [k'|e]; simpl; [|discriminate].
    intros [= <-]. simpl. f_equal. apply IH. reflexivity.
Qed.

Lemma mapM_result_Forall2 {A B} (f : A -> result B) (l : list A) (k : list B) :
  mapM f l = Ok k -> Forall2 (fun a b => f a = Ok b) l k.
Proof.
  revert k. induction l as [|a l IH]; intros k; simpl.
  - intros [= <-]. constructor.
  - destruct (f a) as [b|e] eqn:Hfa; simpl; [|discriminate].
    destruct (mapM f l) as [k'|e]; simpl; [|discriminate].
    intros [= <-]. constructor; [assumption|]. apply IH. reflexivity.
Qed.

(** ** Python's [sorted] *)

Section SortedFacts.
Context {A K : Type} (lt : K -> K -> bool) (key : A -> K).

Lemma sorted_insert_Permutation reverse x l :
  sorted_insert lt key reverse x l ≡ₚ x :: l.
Proof.
  induction l as [|y l IH]; simpl; [reflexivity|].
  destruct (if reverse then lt (key x) (key y) else lt (key y) (key x)).
  - rewrite IH. apply Permutation_swap.
  - reflexivity.
Qed.

Lemma sorted_Permutation reverse l : sorted lt key reverse l ≡ₚ l.
Proof.
  induction l as [|x l IH]; simpl; [reflexivity|].
  rewrite sorted_insert_Permutation. by rewrite IH.
Qed.

Lemma sorted_length reverse l : length (sorted lt key reverse l) = length l.
Proof. apply Permutation_length, sorted_Permutation. Qed.

Lemma strict_weak_on_Permutation l l' :
  l ≡ₚ l' -> strict_weak_on lt key l -> strict_weak_on lt key l'.
Proof.
  intros Hp [Ha Ht]. split.
  - intros a b Hia Hib. apply Ha; by rewrite Hp.
  - intros a b c Hia Hib Hic. apply Ht; by rewrite Hp.
Qed.

Lemma strict_weak_on_cons x l : strict_weak_on lt key (x :: l) -> strict_weak_on lt key l.
Proof.
  intros [Ha Ht]. split.
  - intros a b Hia Hib. apply Ha; by right.
  - intros a b c Hia Hib Hic. apply Ht; by right.
Qed.

Lemma sorted_insert_StronglySorted x l :
  strict_weak_on lt key (x :: l) ->
  StronglySorted (key_le lt key) l ->
  StronglySorted (key_le lt key) (sorted_insert lt key false x l).
Proof.
  intros Hsw. induction l as [|y l IH]; intros Hs; simpl.
  - repeat constructor.
  - inversion Hs as [|? ? Hs' Hall]; subst.
    destruct (lt (key y) (key x)) eqn:Hyx.
    + constructor.
      * apply IH; [|assumption].
        apply (strict_weak_on_Permutation _ (y :: x :: l)) in Hsw;
          [|apply Permutation_swap].
        by apply strict_weak_on_cons in Hsw.
      * rewrite sorted_insert_Permutation. constructor; [|assumption].
        unfold key_le. destruct Hsw as [Ha _].
        apply Ha; [right; left|left|assumption].
    + constructor; [assumption|].
      constructor; [exact Hyx|].
      rewrite Forall_forall in Hall |- *. intros z Hz.
      destruct Hsw as [_ Ht]. unfold key_le.
      apply (Ht x y z); [left|right; left|by do 2 right|exact Hyx|].
      by apply Hall.
Qed.

Lemma sorted_StronglySorted l :
  strict_weak_on lt key l -> StronglySorted (key_le lt key) (sorted lt key false l).
Proof.
  induction l as [|x l IH]; intros Hsw; simpl; [constructor|].
  apply sorted_insert_StronglySorted.
  - eapply strict_weak_on_Permutation; [|exact Hsw].
    constructor. symmetry. apply sorted_Permutation.
  - apply IH. by apply strict_weak_on_cons in Hsw.
Qed.

Lemma strict_weakb_on (ks : list K) l :
  strict_weakb lt ks = true ->
  (forall a, a ∈ l -> In (key a) ks) ->
  strict_weak_on lt key l.
Proof.
  unfold strict_weakb. rewrite forallb_forall. intros Hb Hks. split.
  - intros a b Hia Hib Hab.
    specialize (Hb (key a) (Hks a Hia)). rewrite forallb_forall in Hb.
    specialize (Hb (key b) (Hks b Hib)).
    apply andb_prop in Hb as [Hb _]. rewrite Hab in Hb. simpl in Hb.
    by apply negb_true_iff.
  - intros a b c Hia Hib Hic Hba Hcb.
    specialize (Hb (key a) (Hks a Hia)). rewrite forallb_forall in Hb.
    specialize (Hb (key b) (Hks b Hib)).
    apply andb_prop in Hb as [_ Hb]. rewrite forallb_forall in Hb.
    specialize (Hb (key c) (Hks c Hic)).
    rewrite Hba, Hcb in Hb. simpl in Hb. by apply negb_true_iff.
Qed.

End SortedFacts.

Lemma strict_weak_on_Z {A} (key : A -> Z) (l : list A) :
  strict_weak_on Z.ltb key l.
Proof. split; intros; lia. Qed.

(** ** Packing bits *)

Lemma bit_vector_to_int_snoc v b :
  bit_utils.bit_vector_to_int (v ++ [b])
  = 2 * bit_utils.bit_vector_to_int v + Z.b2z b.
Proof. unfold bit_utils.bit_vector_to_int. by rewrite foldl_app. Qed.

Lemma bit_vector_to_int_range v :
  0 <= bit_utils.bit_vector_to_int v < 2 ^ Z.of_nat (length v).
Proof.
  induction v as [|b v IH] using rev_ind; [done|].
  rewrite bit_vector_to_int_snoc, length_app. simpl length.
  replace (Z.of_nat (length v + 1)) with (Z.succ (Z.of_nat (length v))) by lia.
  rewrite Z.pow_succ_r by lia. destruct b; simpl Z.b2z; lia.
Qed.

(** Bit [j] of the vector is the binary digit of weight
    [2 ^ (length v - 1 - j)] of the packed integer. *)
Lemma bit_vector_to_int_testbit v j b :
  v !! j = Some b ->
  Z.testbit (bit_utils.bit_vector_to_int v)
            (Z.of_nat (length v) - 1 - Z.of_nat j) = b.
Proof.
  revert j b. induction v as [|b' v IH] using rev_ind; intros j b Hj;
    [done|].
  rewrite bit_vector_to_int_snoc, length_app. simpl length.
  destruct (decide (j = length v)) as [->|Hne].
  - rewrite list_lookup_middle in Hj by done. injection Hj as ->.
    replace (Z.of_nat (length v + 1) - 1 - Z.of_nat (length v)) with 0 by lia.
    apply Z.testbit_0_r.
  - assert (Hlt : (j < length v)%nat).
    { apply lookup_lt_Some in Hj. rewrite length_app in Hj. simpl in Hj. lia. }
    rewrite lookup_app_l in Hj by done.
    replace (Z.of_nat (length v + 1) - 1 - Z.of_nat j)
      with (Z.succ (Z.of_nat (length v) - 1 - Z.of_nat j)) by lia.
    rewrite Z.testbit_succ_r by lia. by apply IH.
Qed.

(** ** The hasher *)

Section Hasher.
Context `{DistanceFunctions}.

Lemma shape1_uniform {A} (m : list (list A)) (b : nat) :
  m <> [] -> Forall (fun row => length row = b) m -> shape1 m = b.
Proof.
  intros Hne Hall. destruct m as [|row m]; [done|].
  unfold shape1. simpl. by inversion Hall.
Qed.

(** With a mean vector of [D] entries and a rotation of [D] rows and [b]
    columns, [get_small_code] of a vector of [D] entries returns the
    vector, the [b] bits obtained by subtracting the mean, multiplying by
    the rotation and testing each component for [>= 0], and those bits
    packed most-significant-first. *)
Lemma get_small_code_bits
    (self : ITQSimilarityIndex) (d : DescriptorElement)
    (mu : ndarray1) (R : ndarray2) (D b : nat) :
  _mean_vector self = Some mu ->
  _r self = Some R ->
  (0 < D)%nat -> (0 < b)%nat ->
  length (vector d) = D ->
  length mu = D ->
  length R = D ->
  Forall (fun row => length row = b) R ->
  exists (bits : list bool) (code : Z),
    get_small_code self d = Ok (vector d, bits, code) /\
    length bits = b /\
    (forall j, (j < b)%nat ->
       bits !! j
       = Some (num_ge (inner (zip_with num_sub (vector d) mu) (column j R))
                      num_zero)) /\
    code = bit_utils.bit_vector_to_int bits /\
    0 <= code < 2 ^ Z.of_nat b /\
    (forall j bit, bits !! j = Some bit ->
       Z.testbit code (Z.of_nat b - 1 - Z.of_nat j) = bit).
Proof.
  intros Hmu HR HD Hb Hv Hlmu HlR Hrows.
  assert (HRne : R <> []) by (intros ->; simpl in HlR; lia).
  pose proof (shape1_uniform R b HRne Hrows) as Hshape.
  set (z := map (fun j => inner (zip_with num_sub (vector d) mu) (column j R))
                (seq 0 b)).
  exists (threshold z), (bit_utils.bit_vector_to_int (threshold z)).
  assert (Hlen : length (threshold z) = b).
  { unfold threshold, z. by rewrite !length_map, length_seq. }
  split; [|split; [exact Hlen|split; [|split; [reflexivity|split]]]].
  - unfold get_small_code. rewrite Hmu, HR. simpl.
    unfold np_sub. rewrite decide_True by congruence. simpl.
    unfold dot_vm. rewrite decide_True
      by (rewrite length_zip_with; lia).
    simpl. by rewrite Hshape.
  - intros j Hj. unfold threshold, z.
    rewrite !list_lookup_fmap, lookup_seq_lt by done. reflexivity.
  - pose proof (bit_vector_to_int_range (threshold z)) as Hr.
    by rewrite Hlen in Hr.
  - intros j bit Hj. rewrite <- Hlen. by apply bit_vector_to_int_testbit.
Qed.

End Hasher.

(** ** The code index *)

Section CodeIndexFacts.
Context `{Numpy}.
Implicit Types (ci : CodeIndex.t) (d : DescriptorElement).





Lemma count_nonneg ci : 0 <= CodeIndex.count ci.
Proof. unfold CodeIndex.count. lia. Qed.

Lemma get_descriptors_length_le ci code :
  Z.of_nat (length (CodeIndex.get_descriptors ci code)) <= CodeIndex.count ci.
Proof.
  unfold CodeIndex.get_descriptors, CodeIndex.count.
  destruct (ci !! code) as [bucket|] eqn:Hlk; simpl; [|lia].
  apply elem_of_map_to_list in Hlk.
  pose proof (sum_list_with_in _ (fun kb : Z * list DescriptorElement =>
                                    length kb.2) _ Hlk) as Hle.
  simpl in Hle. lia.
Qed.

Lemma count_zero_get_descriptors ci code :
  CodeIndex.count ci = 0 -> CodeIndex.get_descriptors ci code = [].
Proof.
  intros Hz. pose proof (get_descriptors_length_le ci code) as Hle.
  apply length_zero_iff_nil. lia.
Qed.

Lemma codes_Permutation ci : CodeIndex.codes ci ≡ₚ (map_to_list ci).*1.
Proof.
  unfold CodeIndex.codes. apply NoDup_Permutation.
  - apply NoDup_elements.
  - apply NoDup_fst_map_to_list.
  - intros code. rewrite elem_of_elements, elem_of_dom, list_elem_of_fmap.
    split.
    + intros [bucket Hb]. exists (code, bucket). split; [done|].
      by apply elem_of_map_to_list.
    + intros [[code' bucket] [-> Hin]]. exists bucket.
      by apply elem_of_map_to_list.
Qed.

Lemma codes_NoDup ci : NoDup (CodeIndex.codes ci).
Proof. apply NoDup_elements. Qed.

Lemma populated_lookup ci code bucket :
  CodeIndex.populated ci = true -> ci !! code = Some bucket -> bucket <> [].
Proof.
  unfold CodeIndex.populated. rewrite forallb_forall. intros Hall Hlk ->.
  apply elem_of_map_to_list, list_elem_of_In in Hlk.
  specialize (Hall _ Hlk). discriminate.
Qed.

Lemma populated_code ci code :
  CodeIndex.populated ci = true -> code ∈ CodeIndex.codes ci ->
  (1 <= length (CodeIndex.get_descriptors ci code))%nat.
Proof.
  intros Hpop Hin. unfold CodeIndex.codes in Hin.
  rewrite elem_of_elements, elem_of_dom in Hin. destruct Hin as [bucket Hb].
  unfold CodeIndex.get_descriptors. rewrite Hb. simpl.
  pose proof (populated_lookup _ _ _ Hpop Hb). destruct bucket; simpl; [done|lia].
Qed.

Lemma populated_iff ci :
  CodeIndex.populated ci = true <->
  forall code bucket, ci !! code = Some bucket -> bucket <> [].
Proof.
  split; [intros Hpop code bucket; by apply populated_lookup|].
  intros Hall. unfold CodeIndex.populated. apply forallb_forall.
  intros [code bucket] Hin. apply list_elem_of_In, elem_of_map_to_list in Hin.
  specialize (Hall _ _ Hin). simpl. by destruct bucket.
Qed.

Lemma populated_empty : CodeIndex.populated CodeIndex.empty = true.
Proof. reflexivity. Qed.

Lemma populated_add_descriptor ci code d :
  CodeIndex.populated ci = true ->
  CodeIndex.populated (CodeIndex.add_descriptor ci code d) = true.
Proof.
  rewrite !populated_iff. intros Hall code' bucket.
  unfold CodeIndex.add_descriptor.
  destruct (decide (code = code')) as [->|Hne].
  - rewrite lookup_insert_eq. intros [= <-]. by destruct (default [] _).
  - rewrite lookup_insert_ne by done. apply Hall.
Qed.

(** Adding descriptors leaves no code without a descriptor. *)
Lemma populated_add_many_descriptors ci (l : list (Z * DescriptorElement)) :
  CodeIndex.populated ci = true ->
  CodeIndex.populated (CodeIndex.add_many_descriptors ci l) = true.
Proof.
  unfold CodeIndex.add_many_descriptors. revert ci.
  induction l as [|[code d] l IH]; intros ci Hpop; simpl; [done|].
  by apply IH, populated_add_descriptor.
Qed.

Lemma bucket_lengths ci (kbs : list (Z * list DescriptorElement)) :
  Forall (fun kb => ci !! kb.1 = Some kb.2) kbs ->
  length (concat (map (CodeIndex.get_descriptors ci) kbs.*1))
  = sum_list_with (fun kb => length kb.2) kbs.
Proof.
  induction 1 as [|[code bucket] kbs Hkb _ IH]; simpl; [done|].
  rewrite length_app. fold (fst <$> kbs). rewrite IH.
  unfold CodeIndex.get_descriptors. simpl in Hkb. by rewrite Hkb.
Qed.

(** The buckets of the listed codes hold every descriptor once. *)
Lemma codes_total ci (l : list Z) :
  l ≡ₚ CodeIndex.codes ci ->
  Z.of_nat (length (concat (map (CodeIndex.get_descriptors ci) l)))
  = CodeIndex.count ci.
Proof.
  intros Hp. rewrite Hp, codes_Permutation. unfold CodeIndex.count. f_equal.
  apply bucket_lengths. rewrite Forall_forall. intros [code bucket] Hin.
  by apply elem_of_map_to_list in Hin.
Qed.

End CodeIndexFacts.

(** ** The query *)

Section Query.
Context `{DistanceFunctions} (has_len : bool).
Implicit Types (self : ITQSimilarityIndex) (ci : CodeIndex.t).

Lemma count_code_index self ci :
  _code_index self = Some ci -> count has_len self = CodeIndex.count ci.
Proof.
  intros Hci. unfold count.
  rewrite Hci. unfold CodeIndex.truth.
  destruct has_len; [|done].
  destruct (CodeIndex.count ci =? 0) eqn:Hz; simpl; [lia|done].
Qed.

(** *** Selecting the near codes *)

Lemma near_codes_of_split ci d_sc n :
  exists rest,
    near_codes_of ci d_sc n ++ rest ≡ₚ CodeIndex.codes ci /\
    (forall c c', c ∈ near_codes_of ci d_sc n -> c' ∈ rest ->
       hamming_distance d_sc c <= hamming_distance d_sc c').
Proof.
  unfold near_codes_of, nsmallest.
  set (l := sorted Z.ltb (fun e => hamming_distance d_sc e) false
              (CodeIndex.codes ci)).
  exists (drop (Z.to_nat n) l). split.
  - rewrite take_drop. apply sorted_Permutation.
  - intros c c' Hc Hc'.
    assert (Hs : StronglySorted
                   (key_le Z.ltb (fun e => hamming_distance d_sc e)) l)
      by apply sorted_StronglySorted, strict_weak_on_Z.
    rewrite <- (take_drop (Z.to_nat n) l) in Hs.
    pose proof (StronglySorted_app_1_elem_of _ _ _ _ _ Hs Hc Hc') as Hle.
    unfold key_le in Hle. lia.
Qed.

Lemma near_codes_of_length ci d_sc n :
  length (near_codes_of ci d_sc n)
  = Nat.min (Z.to_nat n) (length (CodeIndex.codes ci)).
Proof.
  unfold near_codes_of, nsmallest. by rewrite length_take, sorted_length.
Qed.

Lemma near_codes_of_sorted ci d_sc n :
  StronglySorted
    (fun c c' => hamming_distance d_sc c <= hamming_distance d_sc c')
    (near_codes_of ci d_sc n).
Proof.
  unfold near_codes_of, nsmallest.
  set (l := sorted Z.ltb (fun e => hamming_distance d_sc e) false
              (CodeIndex.codes ci)).
  assert (Hs : StronglySorted
                 (key_le Z.ltb (fun e => hamming_distance d_sc e)) l)
    by apply sorted_StronglySorted, strict_weak_on_Z.
  rewrite <- (take_drop (Z.to_nat n) l) in Hs.
  apply StronglySorted_app_1_l in Hs.
  rewrite <- (list_fmap_id (take _ l)).
  eapply StronglySorted_fmap; [|exact Hs].
  intros c c'. unfold key_le. simpl. lia.
Qed.

Lemma near_codes_of_elem ci d_sc n c :
  c ∈ near_codes_of ci d_sc n -> c ∈ CodeIndex.codes ci.
Proof.
  destruct (near_codes_of_split ci d_sc n) as (rest & Hp & _).
  intros Hc. rewrite <- Hp. apply elem_of_app. by left.
Qed.

(** *** Collecting the candidates *)

Lemma collect_neighbors_stop ci t near acc :
  exists k : nat,
    (k <= length near)%nat /\
    collect_neighbors ci t near acc = acc ++ buckets ci near k /\
    (forall j, (1 <= j < k)%nat ->
       Z.of_nat (length (acc ++ buckets ci near j)) < t) /\
    ((k < length near)%nat ->
       t <= Z.of_nat (length (acc ++ buckets ci near k))) /\
    (near <> [] -> (1 <= k)%nat).
Proof.
  revert acc. induction near as [|nc near IH]; intros acc.
  - exists 0%nat. unfold buckets. simpl. rewrite app_nil_r.
    repeat split; try done; try lia; simpl; intros; lia.
  - simpl.
    destruct (Z.of_nat (length (acc ++ CodeIndex.get_descriptors ci nc)) >=? t)
      eqn:Hge.
    + exists 1%nat. unfold buckets. simpl. rewrite app_nil_r.
      repeat split; try done; try lia.
    + destruct (IH (acc ++ CodeIndex.get_descriptors ci nc))
        as (k & Hk & Heq & Hbelow & Hreach & _).
      exists (S k). unfold buckets in *. simpl.
      rewrite !app_assoc.
      repeat split; try done; try lia.
      intros j Hj. destruct j as [|j]; [lia|]. simpl.
      destruct j as [|j].
      * simpl. rewrite app_nil_r. lia.
      * rewrite app_assoc. apply Hbelow. lia.
Qed.

Lemma buckets_length_ge ci near k :
  CodeIndex.populated ci = true ->
  (forall c, c ∈ near -> c ∈ CodeIndex.codes ci) ->
  (k <= length near)%nat ->
  (k <= length (buckets ci near k))%nat.
Proof.
  intros Hpop. unfold buckets. revert k.
  induction near as [|c near IH]; intros k Hin Hk.
  - simpl in Hk. assert (k = 0%nat) as -> by lia. simpl. lia.
  - destruct k as [|k]; simpl; [lia|].
    rewrite length_app.
    pose proof (populated_code ci c Hpop (Hin c ltac:(left))) as H1.
    specialize (IH k (fun c' Hc' => Hin c' ltac:(by right)) ltac:(simpl in Hk; lia)).
    lia.
Qed.

(** With no empty bucket, the candidates number at least
    [min(n, count)]. *)
Lemma candidates_length self ci d_sc n :
  _code_index self = Some ci ->
  CodeIndex.populated ci = true ->
  Z.min n (CodeIndex.count ci)
  <= Z.of_nat (length (candidates has_len self ci d_sc n)).
Proof.
  intros Hci Hpop. unfold candidates.
  rewrite (count_code_index self ci Hci).
  destruct (collect_neighbors_stop ci (Z.min n (CodeIndex.count ci))
              (near_codes_of ci d_sc n) [])
    as (k & Hk & -> & _ & Hreach & _).
  simpl in *.
  destruct (decide (k < length (near_codes_of ci d_sc n))%nat) as [Hlt|Hge];
    [by apply Hreach|].
  assert (k = length (near_codes_of ci d_sc n)) as -> by lia.
  unfold buckets. rewrite firstn_all.
  pose proof (near_codes_of_length ci d_sc n) as Hlen.
  destruct (decide (Z.to_nat n <= length (CodeIndex.codes ci))%nat) as [Hn|Hn].
  - pose proof (buckets_length_ge ci (near_codes_of ci d_sc n)
                  (length (near_codes_of ci d_sc n)) Hpop
                  (near_codes_of_elem ci d_sc n) ltac:(lia)) as Hb.
    unfold buckets in Hb. rewrite firstn_all in Hb. lia.
  - assert (Hall : near_codes_of ci d_sc n ≡ₚ CodeIndex.codes ci).
    { unfold near_codes_of, nsmallest.
      rewrite take_ge by (rewrite sorted_length; lia).
      apply sorted_Permutation. }
    rewrite (codes_total ci _ Hall). lia.
Qed.

Lemma candidates_elem self ci d_sc n e :
  e ∈ candidates has_len self ci d_sc n -> e ∈ CodeIndex.all_descriptors ci.
Proof.
  unfold candidates.
  destruct (collect_neighbors_stop ci (Z.min n (count has_len self))
              (near_codes_of ci d_sc n) [])
    as (k & _ & -> & _).
  simpl. unfold buckets, CodeIndex.all_descriptors.
  rewrite !list_elem_of_In, !in_concat.
  intros (bucket & Hb & He).
  apply in_map_iff in Hb as (c & <- & _).
  unfold CodeIndex.get_descriptors in He.
  destruct (ci !! c) as [bucket|] eqn:Hlk; simpl in He; [|done].
  exists bucket. split; [|done].
  apply list_elem_of_In, list_elem_of_fmap. exists (c, bucket).
  split; [done|]. by apply elem_of_map_to_list.
Qed.

Lemma buckets_empty ci near k :
  CodeIndex.count ci = 0 -> buckets ci near k = [].
Proof.
  intros Hz. unfold buckets.
  induction (take k near) as [|c l IH]; simpl; [done|].
  by rewrite IH, count_zero_get_descriptors.
Qed.

Lemma nn_unfold self d n v bits d_sc ci :
  get_small_code self d = Ok (v, bits, d_sc) ->
  _code_index self = Some ci ->
  nn has_len self d n
  = rank_neighbors self v n (candidates has_len self ci d_sc n).
Proof. intros Hsc Hci. unfold nn. by rewrite Hsc, Hci. Qed.

(** C1, as the code has it.  On an index that holds no descriptor [nn]
    returns nothing and raises: TypeError when no mean vector is set
    (never trained), and ValueError, from unpacking an empty ranking, when
    the probe can be hashed and a code index without descriptors is in
    place. *)
Theorem nn_empty_index_raises self d n :
  count has_len self = 0 ->
  (exists e, nn has_len self d n = Raise e) /\
  (_mean_vector self = None -> nn has_len self d n = Raise TypeError) /\
  (forall v bits d_sc ci,
     get_small_code self d = Ok (v, bits, d_sc) ->
     _code_index self = Some ci ->
     nn has_len self d n = Raise ValueError).
Proof.
  intros Hz.
  assert (Hval : forall v bits d_sc ci,
            get_small_code self d = Ok (v, bits, d_sc) ->
            _code_index self = Some ci ->
            nn has_len self d n = Raise ValueError).
  { intros v bits d_sc ci Hsc Hci.
    rewrite (nn_unfold _ _ _ _ _ _ _ Hsc Hci).
    rewrite (count_code_index self ci Hci) in Hz.
    unfold candidates.
    destruct (collect_neighbors_stop ci (Z.min n (count has_len self))
                (near_codes_of ci d_sc n) []) as (k & _ & -> & _).
    simpl. by rewrite buckets_empty. }
  split; [|split; [|exact Hval]].
  - destruct (get_small_code self d) as [[[v bits] d_sc]|e] eqn:Hsc.
    + destruct (_code_index self) as [ci|] eqn:Hci.
      * exists ValueError. by eapply Hval.
      * exists AttributeError. unfold nn. by rewrite Hsc, Hci.
    + exists e. unfold nn. by rewrite Hsc.
  - intros Hmu. unfold nn, get_small_code. by rewrite Hmu.
Qed.

(** C6.  In [nn(d, n)] on an index with a code index, for a probe that
    hashes to [d_sc]: the near codes are [min(n, K)] of the [K] codes of
    [codes()], none farther from [d_sc] in Hamming distance than a code
    left out, in ascending order of that distance; the candidates are the
    buckets of the first [k] near codes, where no shorter non-empty prefix
    reaches [min(n, count)] descriptors and, unless every near code is
    used, the first [k] do; [nn] then ranks exactly these candidates. *)
Theorem nn_candidates self d n v bits d_sc ci :
  1 <= n ->
  get_small_code self d = Ok (v, bits, d_sc) ->
  _code_index self = Some ci ->
  let near := near_codes_of ci d_sc n in
  let termination_count := Z.min n (CodeIndex.count ci) in
  nn has_len self d n
  = rank_neighbors self v n (candidates has_len self ci d_sc n) /\
  (exists rest,
     near ++ rest ≡ₚ CodeIndex.codes ci /\
     forall c c', c ∈ near -> c' ∈ rest ->
       hamming_distance d_sc c <= hamming_distance d_sc c') /\
  length near = Nat.min (Z.to_nat n) (length (CodeIndex.codes ci)) /\
  StronglySorted
    (fun c c' => hamming_distance d_sc c <= hamming_distance d_sc c') near /\
  exists k : nat,
    (k <= length near)%nat /\
    candidates has_len self ci d_sc n = buckets ci near k /\
    (forall j, (1 <= j < k)%nat ->
       Z.of_nat (length (buckets ci near j)) < termination_count) /\
    ((k < length near)%nat ->
       termination_count <= Z.of_nat (length (buckets ci near k))) /\
    (near <> [] -> (1 <= k)%nat).
Proof.
  intros Hn Hsc Hci near t.
  split; [by apply nn_unfold with bits|].
  split; [apply near_codes_of_split|].
  split; [apply near_codes_of_length|].
  split; [apply near_codes_of_sorted|].
  unfold candidates. rewrite (count_code_index self ci Hci).
  fold near. fold t.
  destruct (collect_neighbors_stop ci t near [])
    as (k & Hk & Heq & Hbelow & Hreach & Hfirst).
  exists k. simpl in *. by repeat split.
Qed.


End Query.

(** ** Training *)

Section Training.
Context `{DistanceFunctions}.
Implicit Types (self : ITQSimilarityIndex) (w : World) (st : Store).

(** [_find_itq_rotation] is the computation [itq_rotation] on the random
    state. *)
Lemma find_itq_rotation_pure v n_iter w :
  _find_itq_rotation v n_iter w
  = ({| w_self := w_self w;
        w_random := (itq_rotation v n_iter (w_random w)).1;
        w_store := w_store w |},
     (itq_rotation v n_iter (w_random w)).2).
Proof.
  unfold _find_itq_rotation, itq_rotation, py_bind, numpy_random_randn,
    py_lift, py_ret.
  destruct (randn _ _ _) as [m g]. cbn [w_self w_random w_store fst snd].
  destruct (linalg_svd m) as [[[u11 s2] v2]|e]; simpl; [|done].
  destruct (itq_loop _ _ _) as [r|e]; simpl; [|done].
  by destruct (dot v r) as [z|e].
Qed.

(** The steps of [build_index] after the seeding, unfolded one bind at a
    time. *)
Ltac staged_tail :=
  unfold py_bind at 1;
  destruct (decide (map vector _ = [])); [done|];
  unfold py_ret at 1; unfold py_bind at 1, py_lift at 1;
  destruct (np_mean _) as [mu|e]; [|done];
  unfold py_bind at 1, assign at 1; cbn [w_self w_random w_store];
  unfold py_bind at 1, py_lift at 1; unfold pca;
  destruct (np_isub _ _) as [x|e]; [|done];
  cbn [mbind result_bind];
  unfold py_bind at 1, py_lift at 1;
  destruct (np_cov _) as [c|e]; [|done];
  cbn [mbind result_bind];
  unfold py_bind at 1, py_lift at 1;
  destruct (linalg_eig _) as [[l pc]|e]; [|done];
  cbn [mbind result_bind];
  unfold py_bind at 1, py_lift at 1;
  destruct (dot x _) as [xx|e]; [|done];
  cbn [mbind result_bind];
  unfold py_bind at 1; rewrite find_itq_rotation_pure;
  cbn [w_self w_random w_store];
  destruct (itq_rotation _ _ _) as [g2 [[cm r]|e]]; [|done];
  cbn [fst snd];
  unfold py_bind at 1, assign at 1; cbn [w_self w_random w_store];
  unfold py_bind at 1, py_lift at 1;
  destruct (dot _ r) as [R|e]; [|done];
  unfold py_bind at 1, assign at 1; cbn [w_self w_random w_store];
  unfold py_bind at 1, call_index_factory at 1;
  cbn [w_self w_random w_store];
  destruct (_index_factory _ _) as [handed st1];
  unfold py_bind at 1, assign at 1; cbn [w_self w_random w_store fst snd];
  destruct (code_descriptor_pairs 0 cm _) as [pairs outcome];
  unfold py_bind, add_many_descriptors_in_place, py_lift;
  cbn [w_self w_random w_store fst snd];
  reflexivity.

(** [build_index] is the staged computation, with the assignments made on
    the way. *)
Lemma build_index_staged_eq descriptors self g st :
  build_index descriptors {| w_self := self; w_random := g; w_store := st |}
  = build_index_staged descriptors self g st.
Proof.
  unfold build_index, build_index_staged, seed_step.
  unfold py_bind at 1. unfold get_self at 1. cbn [w_self].
  unfold py_bind at 1.
  destruct (rand_seed_truth (_rand_seed self)).
  - unfold numpy_random_seed at 1. cbn [w_self w_random w_store].
    destruct (_ && _); [|done]. staged_tail.
  - unfold py_ret at 1. staged_tail.
Qed.

Lemma itq_rotation_length v n_iter g c r :
  (itq_rotation v n_iter g).2 = Ok (c, r) ->
  exists z, dot v r = Ok z /\ c = map threshold z /\ length c = length v.
Proof.
  unfold itq_rotation. destruct (randn _ _ _) as [m g']. cbn [snd].
  destruct (linalg_svd m) as [[[u11 s2] v2]|e]; simpl; [|done].
  destruct (itq_loop _ _ _) as [r'|e]; simpl; [|done].
  destruct (dot v r') as [z|e] eqn:Hz; simpl; [|done].
  intros [= <- <-]. exists z. repeat split; [done|].
  rewrite length_map. unfold dot in Hz. by apply mapM_result_length in Hz.
Qed.

Lemma code_descriptor_pairs_outcome i c (descr_cache : list DescriptorElement) :
  (i + length c <= length descr_cache)%nat ->
  (code_descriptor_pairs i c descr_cache).2 = Ok tt /\
  length (code_descriptor_pairs i c descr_cache).1 = length c.
Proof.
  revert i. induction c as [|row c IH]; intros i Hi; simpl; [done|].
  simpl in Hi.
  destruct (lookup_lt_is_Some_2 descr_cache i ltac:(lia)) as [d ->].
  specialize (IH (S i) ltac:(lia)).
  destruct (code_descriptor_pairs (S i) c descr_cache) as [l r].
  simpl in *. destruct IH as [-> ->]. done.
Qed.

Lemma code_descriptor_pairs_Ok i c (descr_cache : list DescriptorElement) :
  (code_descriptor_pairs i c descr_cache).2 = Ok tt ->
  (code_descriptor_pairs i c descr_cache).1
  = zip (map bit_utils.bit_vector_to_int c) (drop i descr_cache).
Proof.
  revert i. induction c as [|row c IH]; intros i; simpl; [done|].
  destruct (descr_cache !! i) as [d|] eqn:Hd; [|done].
  specialize (IH (S i)).
  destruct (code_descriptor_pairs (S i) c descr_cache) as [l r].
  simpl in *. intros ->. rewrite IH by done.
  by rewrite (drop_S _ _ _ Hd).
Qed.

(** The stages of [build_index] up to the rotation, when they succeed:
    the codes have one row for each descriptor. *)
Lemma build_index_stages_length descriptors (mu : ndarray1)
    (x pc_top xx : ndarray2) b n_iter g c r :
  np_isub (map vector descriptors) mu = Ok x ->
  pca b x = Ok (pc_top, xx) ->
  (itq_rotation xx n_iter g).2 = Ok (c, r) ->
  dot x pc_top = Ok xx /\
  exists z, dot xx r = Ok z /\ c = map threshold z /\
            length z = length descriptors.
Proof.
  intros Hx Hpca Hrot.
  assert (Hxx : dot x pc_top = Ok xx).
  { unfold pca in Hpca.
    destruct (np_cov _) as [cv|e]; cbn [mbind result_bind] in Hpca; [|done].
    destruct (linalg_eig _) as [[l pc]|e]; cbn [mbind result_bind] in Hpca;
      [|done].
    destruct (dot x _) as [xx'|e] eqn:Hd; cbn [mbind result_bind] in Hpca;
      [|done].
    by injection Hpca as <- <-. }
  split; [done|].
  destruct (itq_rotation_length _ _ _ _ _ Hrot) as (z & Hz & -> & Hlen).
  exists z. split; [done|]. split; [done|].
  rewrite length_map in Hlen.
  unfold dot in Hxx. apply mapM_result_length in Hxx.
  unfold np_isub in Hx. apply mapM_result_length in Hx.
  rewrite length_map in Hx. etrans; [exact Hlen|]. etrans; [exact Hxx|done].
Qed.

(** What a successful [build_index] has computed and installed. *)
Lemma build_index_success descriptors self g st w' :
  build_index descriptors {| w_self := self; w_random := g; w_store := st |}
  = (w', Ok tt) ->
  exists g1 mu x pc_top xx z r R,
    seed_step (_rand_seed self) g = Ok g1 /\
    descriptors <> [] /\
    np_mean (map vector descriptors) = Ok mu /\
    np_isub (map vector descriptors) mu = Ok x /\
    pca (_bit_len self) x = Ok (pc_top, xx) /\
    (itq_rotation xx (_itq_iter_num self) g1).2 = Ok (map threshold z, r) /\
    dot xx r = Ok z /\
    dot pc_top r = Ok R /\
    length z = length descriptors /\
    let ci :=
      CodeIndex.add_many_descriptors (handed_out (_index_factory self) st)
        (zip (map (fun zi => bit_utils.bit_vector_to_int (threshold zi)) z)
             descriptors) in
    w_self w' = with_trained self (Some mu) (Some R) (Some ci) /\
    w_store w'
    = filled (_index_factory self st).1 ci (_index_factory self st).2.
Proof.
  rewrite build_index_staged_eq. unfold build_index_staged.
  destruct (seed_step _ _) as [g1|e]; [|done].
  destruct (decide _) as [|Hne]; [done|].
  destruct (np_mean _) as [mu|e]; [|done].
  destruct (np_isub _ mu) as [x|e] eqn:Hx; cbn [mbind result_bind]; [|done].
  destruct (pca _ x) as [[pc_top xx]|e] eqn:Hpca; [|done].
  destruct (itq_rotation _ _ _) as [g2 [[c r]|e]] eqn:Hrot; [|done].
  destruct (dot pc_top r) as [R|e] eqn:HR; [|done].
  intros [= <- Hout].
  assert (Hrot' : (itq_rotation xx (_itq_iter_num self) g1).2 = Ok (c, r))
    by (by rewrite Hrot).
  destruct (build_index_stages_length _ _ _ _ _ _ _ _ _ _ Hx Hpca Hrot')
    as (_ & z & Hz & -> & HN).
  exists g1, mu, x, pc_top, xx, z, r, R.
  do 9 (split; [first [done | by intros ->]|]).
  cbn [w_self w_store]. rewrite (code_descriptor_pairs_Ok _ _ _ Hout).
  rewrite drop_0, map_map. by unfold handed_out.
Qed.

(** What a failed [build_index] leaves: the store as it was and, of the
    instance, all but what had been assigned by then. *)
Lemma build_index_failure descriptors self g st w' e :
  build_index descriptors {| w_self := self; w_random := g; w_store := st |}
  = (w', Raise e) ->
  w_store w' = st /\
  match seed_step (_rand_seed self) g with
  | Raise e' =>
      e = e' /\ w' = {| w_self := self; w_random := g; w_store := st |}
  | Ok g1 =>
      if decide (descriptors = []) then e = ValueError /\ w_self w' = self
      else
        match np_mean (map vector descriptors) with
        | Raise e' => e = e' /\ w_self w' = self
        | Ok mu =>
            w_self w' = set_mean_vector (Some mu) self \/
            exists r, w_self w' = set_r (Some r) (set_mean_vector (Some mu) self)
        end
  end.
Proof.
  rewrite build_index_staged_eq. unfold build_index_staged.
  destruct (seed_step _ _) as [g1|e1]; [|by intros [= <- <-]].
  destruct (decide (map vector descriptors = [])) as [Hnil|Hne].
  { intros [= <- <-]. rewrite decide_True; [done|].
    by destruct descriptors. }
  rewrite decide_False by (intros ->; done).
  destruct (np_mean _) as [mu|e1]; [|by intros [= <- <-]].
  destruct (np_isub _ mu) as [x|e1] eqn:Hx; cbn [mbind result_bind];
    [|intros [= <- <-]; split; [done|by left]].
  destruct (pca _ x) as [[pc_top xx]|e1] eqn:Hpca;
    [|intros [= <- <-]; split; [done|by left]].
  destruct (itq_rotation _ _ _) as [g2 [[c r]|e1]] eqn:Hrot;
    [|intros [= <- <-]; split; [done|by left]].
  destruct (dot pc_top r) as [R|e1] eqn:HR;
    [|intros [= <- <-]; split; [done|right; by exists r]].
  assert (Hrot' : (itq_rotation xx (_itq_iter_num self) g1).2 = Ok (c, r))
    by (by rewrite Hrot).
  destruct (build_index_stages_length _ _ _ _ _ _ _ _ _ _ Hx Hpca Hrot')
    as (_ & z & Hz & -> & HN).
  pose proof (code_descriptor_pairs_outcome 0 (map threshold z) descriptors)
    as [Hout _];
    [rewrite length_map; simpl; apply Nat.eq_le_incl; exact HN|].
  rewrite Hout. done.
Qed.

Lemma seed_step_error rand_seed g e :
  seed_step rand_seed g = Raise e -> e = ValueError.
Proof.
  unfold seed_step. destruct (rand_seed_truth _); [|done].
  by destruct (_ && _); [|intros [= <-]].
Qed.

Lemma with_trained_configuration self mu r ci :
  same_configuration self (with_trained self mu r ci).
Proof. by repeat split. Qed.

(** [build_index] assigns the mean vector, the rotation and the code index
    only. *)
Lemma build_index_configuration descriptors w :
  same_configuration (w_self w) (w_self (build_index descriptors w).1).
Proof.
  destruct w as [self g st]. cbn [w_self].
  destruct (build_index _ _) as [w' [[]|e]] eqn:Hrun; cbn [fst].
  - destruct (build_index_success _ _ _ _ _ Hrun)
      as (g1 & mu & x & pc_top & xx & z & r & R & _ & _ & _ & _ & _ & _ & _
          & _ & _ & -> & _).
    apply with_trained_configuration.
  - destruct (build_index_failure _ _ _ _ _ _ Hrun) as [_ Hcase].
    destruct (seed_step _ _); [|by destruct Hcase as [_ ->]].
    destruct (decide _); [by destruct Hcase as [_ ->]|].
    destruct (np_mean _); [|by destruct Hcase as [_ ->]].
    by destruct Hcase as [->|[r ->]].
Qed.

(** A failed [build_index] leaves the code index that was installed. *)
Lemma build_index_failure_code_index descriptors w e :
  (build_index descriptors w).2 = Raise e ->
  _code_index (w_self (build_index descriptors w).1) = _code_index (w_self w).
Proof.
  destruct w as [self g st]. cbn [w_self].
  destruct (build_index _ _) as [w' res] eqn:Hrun. cbn [fst snd].
  intros ->. destruct (build_index_failure _ _ _ _ _ _ Hrun) as [_ Hcase].
  destruct (seed_step _ _); [|by destruct Hcase as [_ ->]].
  destruct (decide _); [by destruct Hcase as [_ ->]|].
  destruct (np_mean _); [|by destruct Hcase as [_ ->]].
  by destruct Hcase as [->|[r ->]].
Qed.

(** C7.  [build_index] on an empty collection raises ValueError, the
    error documented for missing data, and leaves the instance as it was:
    no mean vector, rotation or code index is installed. *)
Theorem build_index_empty w :
  (build_index [] w).2 = Raise ValueError /\
  w_self (build_index [] w).1 = w_self w.
Proof.
  destruct w as [self g st]. rewrite build_index_staged_eq.
  unfold build_index_staged.
  destruct (seed_step _ _) as [g1|e] eqn:Hseed.
  - by rewrite decide_True.
  - by rewrite (seed_step_error _ _ _ Hseed).
Qed.




(** The code index that a successful [build_index] leaves has no empty
    bucket, when the index handed out had none. *)
Lemma build_index_populated descriptors w :
  CodeIndex.populated (handed_out (_index_factory (w_self w)) (w_store w))
  = true ->
  (build_index descriptors w).2 = Ok tt ->
  exists ci,
    _code_index (w_self (build_index descriptors w).1) = Some ci /\
    CodeIndex.populated ci = true.
Proof.
  intros Hfac Hok. destruct w as [self g st].
  destruct (build_index _ _) as [w' res] eqn:Hrun. cbn [fst snd] in *.
  subst res.
  destruct (build_index_success _ _ _ _ _ Hrun)
    as (g1 & mu & x & pc_top & xx & z & r & R & _ & _ & _ & _ & _ & _ & _
        & _ & _ & -> & _).
  eexists. split; [reflexivity|].
  by apply populated_add_many_descriptors.
Qed.

(** With a seed that is not zero the outcome of [build_index] does not
    depend on the state of [numpy.random] found at the call. *)
Lemma build_index_seeded descriptors self g g' st :
  rand_seed_truth (_rand_seed self) = true ->
  build_index descriptors {| w_self := self; w_random := g; w_store := st |}
  = build_index descriptors
      {| w_self := self; w_random := g'; w_store := st |} \/
  exists e,
    build_index descriptors {| w_self := self; w_random := g; w_store := st |}
    = ({| w_self := self; w_random := g; w_store := st |}, Raise e) /\
    build_index descriptors {| w_self := self; w_random := g'; w_store := st |}
    = ({| w_self := self; w_random := g'; w_store := st |}, Raise e).
Proof.
  intros Hseed. rewrite !build_index_staged_eq.
  unfold build_index_staged, seed_step. rewrite Hseed.
  destruct (_ && _); [by left|]. right. by eexists.
Qed.

(** X3.  [_find_itq_rotation] never touches the instance and draws from
    the generator exactly once, whatever the outcome; when it succeeds,
    the codes it returns are the signs of the data under the rotation it
    returns, one row of bits for each row of data. *)
Theorem find_itq_rotation_spec v n_iter w :
  let out := _find_itq_rotation v n_iter w in
  w_self out.1 = w_self w /\
  w_random out.1 = (randn (shape1 v) (shape1 v) (w_random w)).2 /\
  match out.2 with
  | Ok (c, r) =>
      exists z, dot v r = Ok z /\ c = map threshold z /\ length c = length v
  | Raise _ => True
  end.
Proof.
  intros out. subst out. rewrite find_itq_rotation_pure.
  cbn [fst snd w_self w_random].
  split; [done|]. split.
  - unfold itq_rotation. by destruct (randn _ _ _).
  - destruct ((itq_rotation v n_iter (w_random w)).2) as [[c r]|e] eqn:Hrot;
      [|done].
    by apply (itq_rotation_length v n_iter (w_random w)).
Qed.

(** X7.  [build_index] reads the configuration, the random state and the
    store only: run on two instances that differ in what they were trained
    to, it has the same outcome and leaves the same random state and the
    same store, and when it succeeds it leaves the two instances equal. *)
Theorem build_index_forgets descriptors self1 self2 g st :
  same_configuration self1 self2 ->
  let out1 :=
    build_index descriptors
      {| w_self := self1; w_random := g; w_store := st |} in
  let out2 :=
    build_index descriptors
      {| w_self := self2; w_random := g; w_store := st |} in
  out1.2 = out2.2 /\
  w_random out1.1 = w_random out2.1 /\
  w_store out1.1 = w_store out2.1 /\
  (is_Ok out1.2 = true -> w_self out1.1 = w_self out2.1).
Proof.
  intros (Hsf & Hb & Hit & Hseed & Hfac & Hdm & Hdf) out1 out2.
  subst out1 out2. rewrite !build_index_staged_eq.
  unfold build_index_staged. rewrite Hb, Hit, Hseed, Hfac.
  destruct (seed_step _ _) as [g1|e]; [|done].
  destruct (decide _) as [|Hne]; [done|].
  destruct (np_mean _) as [mu|e]; [|done].
  destruct (_ ≫= _) as [[pc_top xx]|e]; [|done].
  destruct (itq_rotation _ _ _) as [g2 [[c r]|e]]; [|done].
  destruct (dot pc_top r) as [R|e]; [|done].
  cbn [fst snd w_self w_random w_store]. repeat split.
  intros _. unfold with_trained. by rewrite Hsf, Hb, Hit, Hseed, Hfac, Hdm, Hdf.
Qed.

(** X14.  A negative seed is accepted by the constructor's checks but
    never by the generator: [build_index] then fails on every input and
    leaves the instance and the random state as they were. *)
Theorem build_index_negative_seed descriptors w s :
  _rand_seed (w_self w) = Some s ->
  s < 0 ->
  is_Ok (build_index descriptors w).2 = false /\
  (build_index descriptors w).1 = w.
Proof.
  intros Hseed Hs. destruct w as [self g st]. cbn [w_self] in Hseed.
  rewrite build_index_staged_eq. unfold build_index_staged, seed_step.
  rewrite Hseed. unfold rand_seed_truth. simpl default.
  replace (s =? 0) with false by lia.
  replace (0 <=? s) with false by lia. done.
Qed.

(** X2.  [build_index] leaves the configuration alone: bit length,
    iteration count, seed, index factory, distance label and function and
    save file name are after the call what they were before it, so an
    instance that meets the constructor's conditions still meets them. *)
Theorem build_index_keeps_configuration descriptors w :
  well_configured (w_self w) ->
  same_configuration (w_self w) (w_self (build_index descriptors w).1) /\
  well_configured (w_self (build_index descriptors w).1).
Proof.
  intros Hwc. pose proof (build_index_configuration descriptors w) as Hc.
  split; [exact Hc|].
  destruct Hc as (Hsf & Hb & Hit & _ & _ & Hdm & Hdf).
  unfold well_configured, dist_consistent in *.
  by rewrite Hsf, Hb, Hit, Hdm, Hdf.
Qed.

End Training.

(** ** Saving and loading *)

Section Loading.
Context `{DistanceFunctions} `{!FileSystem}.
Implicit Types (self : ITQSimilarityIndex) (fs : gmap string fs_entry)
  (w : World).

Lemma get_dist_func_error label e :
  _get_dist_func label = Raise e -> e = ValueError.
Proof.
  unfold _get_dist_func. repeat case_decide; try done. by intros [= <-].
Qed.

(** [load_index] leaves the world as it is when there is no dictionary to
    read. *)
Lemma load_index_no_state fs dir_path w :
  (forall state,
     fs !! osp_join dir_path (_save_file (w_self w))
     <> Some (RegularFile (Pickled state))) ->
  (load_index fs dir_path w).1 = w.
Proof.
  intros Hno. unfold load_index. unfold py_bind at 1. unfold get_self.
  cbn [w_self].
  destruct (fs !! osp_join dir_path (_save_file (w_self w)))
    as [[| |[|state]]|] eqn:Hfs; try done.
  by destruct (Hno state).
Qed.

(** What [load_index] does with a file that holds a dictionary. *)
Lemma load_index_pickled fs dir_path w state :
  fs !! osp_join dir_path (_save_file (w_self w))
  = Some (RegularFile (Pickled state)) ->
  load_index fs dir_path w
  = ({| w_self := (install_state state (w_self w)).1;
        w_random := w_random w;
        w_store := w_store w |},
     (install_state state (w_self w)).2).
Proof.
  intros Hfs. destruct w as [self g st]. unfold load_index.
  unfold py_bind at 1. unfold get_self.
  cbn [w_self w_random w_store] in *. rewrite Hfs.
  unfold getitem, py_bind, py_lift, assign, install_state.
  destruct state as [b it seed mu r ci dm]; simpl.
  destruct b as [b|]; [|done]. simpl.
  destruct it as [it|]; [|done]. simpl.
  destruct seed as [seed|]; [|done]. simpl.
  destruct mu as [mu|]; [|done]. simpl.
  destruct r as [r|]; [|done]. simpl.
  destruct ci as [ci|]; [|done]. simpl.
  destruct dm as [dm|]; [|done]. simpl.
  by destruct (_get_dist_func dm).
Qed.

(** A dictionary that has every key and a known distance label is
    installed as it is. *)
Lemma install_state_complete state self b it seed mu r ci dm f :
  complete state = Some (b, it, seed, mu, r, ci, dm) ->
  _get_dist_func dm = Ok f ->
  install_state state self
  = ({| _save_file := _save_file self;
        _bit_len := b;
        _itq_iter_num := it;
        _rand_seed := seed;
        _mean_vector := mu;
        _r := r;
        _index_factory := _index_factory self;
        _code_index := ci;
        _dist_method := dm;
        _dist_func := f |}, Ok tt).
Proof.
  unfold complete, install_state.
  destruct (state_bit_len state); [|done].
  destruct (state_itq_iter state); [|done].
  destruct (state_rand_seed state); [|done].
  destruct (state_mean_vector state); [|done].
  destruct (state_rotation state); [|done].
  destruct (state_code_index state); [|done].
  destruct (state_distance_method state); [|done].
  intros [= -> -> -> -> -> -> ->] ->. done.
Qed.

(** The code index after the assignments of [load_index]. *)
Lemma install_state_code_index state self :
  _code_index (install_state state self).1
  = default (_code_index self) (assigned_code_index state).
Proof.
  unfold install_state, assigned_code_index.
  destruct (state_bit_len state); [|done].
  destruct (state_itq_iter state); [|done].
  destruct (state_rand_seed state); [|done].
  destruct (state_mean_vector state); [|done].
  destruct (state_rotation state); [|done].
  destruct (state_code_index state); [|done].
  destruct (state_distance_method state) as [dm|]; [|done].
  by destruct (_get_dist_func dm).
Qed.

(** C8, as the code has it by design.  [load_index] raises
    SimilarityIndexStateLoadError, leaving everything as it was, when the
    save file under the directory is not there as a file.  A dictionary
    that has every key and a known distance label is installed as it is,
    with the distance function of its label: its bit length is not held
    against the dimensions of its mean vector and rotation.  Nothing is
    said here of a file that cannot be read or holds something else. *)
Theorem load_index_spec fs dir_path w :
  let self := w_self w in
  let out := load_index fs dir_path w in
  match fs !! osp_join dir_path (_save_file self) with
  | None | Some Directory =>
      out = (w, Raise SimilarityIndexStateLoadError)
  | Some (RegularFile (Pickled state)) =>
      match complete state with
      | Some (b, it, seed, mu, r, ci, dm) =>
          match _get_dist_func dm with
          | Ok f =>
              out.2 = Ok tt /\
              w_random out.1 = w_random w /\
              w_store out.1 = w_store w /\
              w_self out.1
              = {| _save_file := _save_file self;
                   _bit_len := b;
                   _itq_iter_num := it;
                   _rand_seed := seed;
                   _mean_vector := mu;
                   _r := r;
                   _index_factory := _index_factory self;
                   _code_index := ci;
                   _dist_method := dm;
                   _dist_func := f |}
          | Raise _ => True
          end
      | None => True
      end
  | Some UnreadableFile | Some (RegularFile NotAPickle) => True
  end.
Proof.
  intros self out. subst self out.
  destruct (fs !! osp_join dir_path (_save_file (w_self w)))
    as [[| |[|state]]|] eqn:Hfs; try done.
  - unfold load_index. unfold py_bind at 1. unfold get_self. cbn [w_self].
    by rewrite Hfs.
  - destruct (complete state) as [[[[[[[b it] seed] mu] r] ci] dm]|] eqn:Hc;
      [|done].
    destruct (_get_dist_func dm) as [f|] eqn:Hf; [|done].
    rewrite (load_index_pickled _ _ _ _ Hfs).
    by rewrite (install_state_complete _ _ _ _ _ _ _ _ _ _ Hc Hf).
  - unfold load_index. unfold py_bind at 1. unfold get_self. cbn [w_self].
    by rewrite Hfs.
Qed.

(** [count()] looks at the code index only. *)
Lemma count_code_index_eq (has_len : bool) self self' :
  _code_index self' = _code_index self ->
  count has_len self' = count has_len self.
Proof. unfold count. by intros ->. Qed.

(** C10, as the code has it.  [count()] is 0 on an instance as
    constructed.  After a [build_index] that succeeds it is the count of
    the code index then in place, and a [build_index] that fails leaves it
    as it was.  [load_index] assigns the code index of the dictionary
    before it looks at the distance label: once the dictionary has the
    keys up to the code index, [count()] is the count of that code index,
    or 0 when there is none, whether the call then succeeds or not; any
    other call of [load_index] leaves [count()] as it was. *)
Theorem count_spec (has_len : bool) :
  (forall index_factory bit_length itq_iterations distance_method random_seed
          self,
     __init__ index_factory bit_length itq_iterations distance_method
              random_seed = Ok self ->
     count has_len self = 0) /\
  (forall descriptors w,
     let out := build_index descriptors w in
     match out.2 with
     | Ok _ =>
         exists ci,
           _code_index (w_self out.1) = Some ci /\
           count has_len (w_self out.1) = CodeIndex.count ci
     | Raise _ => count has_len (w_self out.1) = count has_len (w_self w)
     end) /\
  (forall fs dir_path w,
     let out := load_index fs dir_path w in
     match fs !! osp_join dir_path (_save_file (w_self w)) with
     | Some (RegularFile (Pickled state)) =>
         match assigned_code_index state with
         | Some (Some ci) =>
             _code_index (w_self out.1) = Some ci /\
             count has_len (w_self out.1) = CodeIndex.count ci
         | Some None => count has_len (w_self out.1) = 0
         | None => count has_len (w_self out.1) = count has_len (w_self w)
         end
     | _ => count has_len (w_self out.1) = count has_len (w_self w)
     end).
Proof.
  split; [|split].
  - intros index_factory bit_length itq_iterations distance_method
      random_seed self Hinit.
    assert (Hci : _code_index self = None).
    { unfold __init__ in Hinit.
      destruct (negb (bit_length >? 0)); [done|].
      destruct (negb (itq_iterations >? 0)); [done|].
      destruct (_get_dist_func distance_method); [|done].
      simpl in Hinit. by injection Hinit as <-. }
    unfold count. by rewrite Hci.
  - intros descriptors w out. subst out. destruct w as [self g st].
    destruct (build_index _ _) as [w' [[]|e]] eqn:Hrun; cbn [fst snd].
    + destruct (build_index_success _ _ _ _ _ Hrun)
        as (g1 & mu & x & pc_top & xx & z & r & R & _ & _ & _ & _ & _ & _ & _
            & _ & _ & Hself & _).
      eexists. split; [by rewrite Hself|]. apply count_code_index.
      by rewrite Hself.
    + apply count_code_index_eq.
      pose proof (build_index_failure_code_index descriptors
                    {| w_self := self; w_random := g; w_store := st |} e)
        as Hci.
      rewrite Hrun in Hci. by apply Hci.
  - intros fs dir_path w out. subst out.
    destruct (fs !! osp_join dir_path (_save_file (w_self w)))
      as [[| |[|state]]|] eqn:Hfs;
      try (rewrite load_index_no_state; [done|intros state; by rewrite Hfs]).
    rewrite (load_index_pickled _ _ _ _ Hfs). cbn [fst w_self].
    pose proof (install_state_code_index state (w_self w)) as Hci.
    destruct (assigned_code_index state) as [[ci|]|]; simpl in Hci.
    + split; [done|]. by apply count_code_index.
    + unfold count. by rewrite Hci.
    + by apply count_code_index_eq.
Qed.

(** X4.  What [save_index] has written, [load_index] reads back.  Loading
    from the same directory into an instance with the same save file name
    leaves the random state and the store alone.  It succeeds when the
    saved distance label is a known one: the instance then has every
    attribute of the saved one, its index factory apart, with the distance
    function of the label; it counts and hashes as the saved instance
    does, and answers queries as it does when the saved instance had the
    distance function of its label.  With an unknown label, it raises
    ValueError. *)
Theorem save_load_round_trip (has_len : bool) fs dir_path self fs' loader g st :
  save_index fs dir_path self = (fs', Ok tt) ->
  _save_file loader = _save_file self ->
  let out :=
    load_index fs' dir_path
      {| w_self := loader; w_random := g; w_store := st |} in
  w_random out.1 = g /\
  w_store out.1 = st /\
  match _get_dist_func (_dist_method self) with
  | Ok f =>
      out.2 = Ok tt /\
      w_self out.1
      = {| _save_file := _save_file self;
           _bit_len := _bit_len self;
           _itq_iter_num := _itq_iter_num self;
           _rand_seed := _rand_seed self;
           _mean_vector := _mean_vector self;
           _r := _r self;
           _index_factory := _index_factory loader;
           _code_index := _code_index self;
           _dist_method := _dist_method self;
           _dist_func := f |} /\
      count has_len (w_self out.1) = count has_len self /\
      (forall d, get_small_code (w_self out.1) d = get_small_code self d) /\
      (f = _dist_func self ->
       forall d n, nn has_len (w_self out.1) d n = nn has_len self d n)
  | Raise _ => out.2 = Raise ValueError
  end.
Proof.
  intros Hsave Hfile out.
  assert (Hfs : fs' !! osp_join dir_path (_save_file loader)
                = Some (RegularFile (Pickled (state_of self)))).
  { unfold save_index in Hsave. destruct (_r self); [|done].
    destruct (safe_create_dir fs dir_path) as [fs1 [[]|e]]; [|done].
    destruct (open_wb _ _); [|done].
    injection Hsave as <-. rewrite Hfile. apply lookup_insert_eq. }
  subst out.
  rewrite (load_index_pickled fs' dir_path
             {| w_self := loader; w_random := g; w_store := st |} _ Hfs).
  cbn [fst snd w_self w_random w_store].
  split; [done|]. split; [done|].
  destruct (_get_dist_func (_dist_method self)) as [f|e] eqn:Hf.
  - rewrite (install_state_complete (state_of self) loader _ _ _ _ _ _ _ f
               eq_refl Hf).
    cbn [fst snd]. rewrite Hfile.
    split; [done|]. split; [done|]. split; [done|]. split; [done|].
    by intros ->.
  - unfold install_state, state_of.
    cbn [state_bit_len state_itq_iter state_rand_seed state_mean_vector
         state_rotation state_code_index state_distance_method].
    cbv zeta. rewrite Hf. cbn [snd]. by rewrite (get_dist_func_error _ _ Hf).
Qed.

(** X5.  A saved state without the rotation key makes [load_index] raise
    KeyError with the keys before it installed: bit length, iteration
    count, seed and mean vector are the saved ones, and the rotation, the
    code index and the distance stay what they were. *)
Theorem load_index_missing_rotation fs dir_path w state b it seed mu :
  fs !! osp_join dir_path (_save_file (w_self w))
  = Some (RegularFile (Pickled state)) ->
  state_bit_len state = Some b ->
  state_itq_iter state = Some it ->
  state_rand_seed state = Some seed ->
  state_mean_vector state = Some mu ->
  state_rotation state = None ->
  let out := load_index fs dir_path w in
  out.2 = Raise KeyError /\
  w_self out.1
  = {| _save_file := _save_file (w_self w);
       _bit_len := b;
       _itq_iter_num := it;
       _rand_seed := seed;
       _mean_vector := mu;
       _r := _r (w_self w);
       _index_factory := _index_factory (w_self w);
       _code_index := _code_index (w_self w);
       _dist_method := _dist_method (w_self w);
       _dist_func := _dist_func (w_self w) |}.
Proof.
  intros Hfs Hb Hit Hseed Hmu Hr out. subst out.
  rewrite (load_index_pickled _ _ _ _ Hfs). unfold install_state.
  by rewrite Hb, Hit, Hseed, Hmu, Hr.
Qed.

(** X6.  A saved state that has every key but names no known distance
    makes [load_index] raise ValueError once all the rest is installed:
    the instance then carries the saved label with the distance function
    it had before. *)
Theorem load_index_unknown_distance fs dir_path w state b it seed mu r ci dm :
  fs !! osp_join dir_path (_save_file (w_self w))
  = Some (RegularFile (Pickled state)) ->
  complete state = Some (b, it, seed, mu, r, ci, dm) ->
  dm <> "euclidean" -> dm <> "cosine" -> dm <> "hik" ->
  let out := load_index fs dir_path w in
  out.2 = Raise ValueError /\
  w_self out.1
  = {| _save_file := _save_file (w_self w);
       _bit_len := b;
       _itq_iter_num := it;
       _rand_seed := seed;
       _mean_vector := mu;
       _r := r;
       _index_factory := _index_factory (w_self w);
       _code_index := ci;
       _dist_method := dm;
       _dist_func := _dist_func (w_self w) |}.
Proof.
  intros Hfs Hc Hn1 Hn2 Hn3 out. subst out.
  rewrite (load_index_pickled _ _ _ _ Hfs). unfold install_state.
  unfold complete in Hc.
  destruct (state_bit_len state); [|done].
  destruct (state_itq_iter state); [|done].
  destruct (state_rand_seed state); [|done].
  destruct (state_mean_vector state); [|done].
  destruct (state_rotation state); [|done].
  destruct (state_code_index state); [|done].
  destruct (state_distance_method state); [|done].
  injection Hc as -> -> -> -> -> -> ->.
  unfold _get_dist_func. by rewrite !decide_False.
Qed.

End Loading.

(** ** What training leaves in the index *)

Section IndexContents.
Context `{DistanceFunctions}.
Implicit Types (ci : CodeIndex.t) (d : DescriptorElement)
  (self : ITQSimilarityIndex).

Lemma concat_Permutation {A} (l l' : list (list A)) :
  l ≡ₚ l' -> concat l ≡ₚ concat l'.
Proof.
  induction 1 as [|x l l' _ IH|x y l|l l' l'' _ IH1 _ IH2]; simpl.
  - done.
  - by rewrite IH.
  - rewrite !app_assoc. f_equiv. apply Permutation_app_comm.
  - by rewrite IH1.
Qed.








End IndexContents.

(** ** The constructor and the hasher, at their limits *)

Section Limits.
Context `{DistanceFunctions}.
Implicit Types (self : ITQSimilarityIndex).

(** X1.  The constructor checks the bit length and the iteration count
    first and the distance label last: it raises AssertionError when one
    of the two numbers is not positive, else ValueError when the label is
    none of "euclidean", "cosine" and "hik", and else returns an instance
    that records its arguments, is well configured and carries no mean
    vector, rotation or code index. *)
Theorem init_spec index_factory bit_length itq_iterations distance_method
    random_seed :
  match __init__ index_factory bit_length itq_iterations distance_method
                 random_seed with
  | Ok self =>
      well_configured self /\ untrained self /\
      _bit_len self = bit_length /\
      _itq_iter_num self = itq_iterations /\
      _rand_seed self = random_seed /\
      _index_factory self = index_factory /\
      _dist_method self = distance_method /\
      (distance_method = "euclidean" \/ distance_method = "cosine" \/
       distance_method = "hik")
  | Raise e =>
      (e = AssertionError /\ (bit_length <= 0 \/ itq_iterations <= 0)) \/
      (e = ValueError /\ 0 < bit_length /\ 0 < itq_iterations /\
       distance_method <> "euclidean" /\ distance_method <> "cosine" /\
       distance_method <> "hik")
  end.
Proof.
  unfold __init__.
  destruct (bit_length >? 0) eqn:Hb; simpl; [|left; split; [done|lia]].
  destruct (itq_iterations >? 0) eqn:Hit; simpl; [|left; split; [done|lia]].
  destruct (_get_dist_func distance_method) as [f|e] eqn:Hf; simpl.
  - unfold well_configured, untrained, dist_consistent. simpl.
    repeat split; try done; try lia.
    unfold _get_dist_func in Hf. repeat case_decide; try done; tauto.
  - right. unfold _get_dist_func in Hf.
    repeat case_decide; try done. injection Hf as <-.
    repeat split; try done; lia.
Qed.

(** X13.  On an instance with a mean vector and a rotation,
    [get_small_code] raises nothing but ValueError, and it returns a code
    exactly when the dimensions fit: the vector is as long as the mean
    vector, or one of the two has a single entry and is broadcast, and the
    difference is as long as the rotation has rows. *)
Theorem get_small_code_dimensions self d mu R :
  _mean_vector self = Some mu ->
  _r self = Some R ->
  let v := vector d in
  (forall e, get_small_code self d = Raise e -> e = ValueError) /\
  (is_Ok (get_small_code self d) = true <->
   (length v = length mu /\ length v = length R) \/
   (length v = 1%nat /\ length mu <> 1%nat /\ length mu = length R) \/
   (length mu = 1%nat /\ length v <> 1%nat /\ length v = length R)).
Proof.
  intros Hmu HR v. unfold get_small_code. rewrite Hmu, HR. fold v. simpl.
  unfold np_sub.
  destruct (decide (length v = length mu)) as [Hvm|Hvm]; simpl.
  - unfold dot_vm. rewrite length_zip_with.
    destruct (decide (_ = length R)) as [Hl|Hl]; simpl.
    + split; [done|]. split; [intros _; left; split; [done|lia]|done].
    + split; [by intros e [= <-]|]. split; [done|].
      intros [[_ ?]|[(? & ? & ?)|(? & ? & ?)]]; lia.
  - destruct v as [|x [|x' v']] eqn:Hv; simpl in Hvm |- *.
    + destruct mu as [|y [|y' mu']]; simpl in Hvm |- *; try done.
      * unfold dot_vm. simpl.
        destruct (decide (0%nat = length R)) as [Hl|Hl]; simpl.
        -- split; [done|]. split; [intros _; right; right; by repeat split|done].
        -- split; [by intros e [= <-]|]. split; [done|].
           intros [[? _]|[(? & _)|(_ & _ & ?)]]; done.
      * split; [by intros e [= <-]|]. split; [done|].
        intros [[? _]|[(? & _)|(? & _)]]; done.
    + unfold dot_vm. rewrite length_map.
      destruct (decide (length mu = length R)) as [Hl|Hl]; simpl.
      * split; [done|]. split; [intros _; right; left; by repeat split|done].
      * split; [by intros e [= <-]|]. split; [done|].
        intros [[? _]|[(_ & _ & ?)|(? & ? & _)]]; done.
    + destruct mu as [|y [|y' mu']]; simpl in Hvm |- *.
      * split; [by intros e [= <-]|]. split; [done|].
        intros [[? _]|[(? & _)|(? & _)]]; done.
      * unfold dot_vm. simpl. rewrite length_map.
        destruct (decide (S (S (length v')) = length R)) as [Hl|Hl]; simpl.
        -- split; [done|]. split; [intros _; right; right; by repeat split|done].
        -- split; [by intros e [= <-]|]. split; [done|].
           intros [[? _]|[(? & _)|(_ & _ & ?)]]; done.
      * split; [by intros e [= <-]|]. split; [done|].
        intros [[? _]|[(? & _)|(? & _)]]; simpl in *; lia.
Qed.

End Limits.

(** ** More on the query *)

Section QueryMore.
Context `{DistanceFunctions} (has_len : bool).
Implicit Types (self : ITQSimilarityIndex) (ci : CodeIndex.t)
  (d e : DescriptorElement).

Lemma popcount_pos_positive p : 0 < popcount_pos p.
Proof. induction p; simpl; lia. Qed.

Lemma hamming_distance_nonneg a b : 0 <= hamming_distance a b.
Proof.
  unfold hamming_distance, popcount.
  destruct (Z.lxor a b) as [|p|p]; [lia| |];
    pose proof (popcount_pos_positive p); lia.
Qed.

Lemma hamming_distance_zero a b : hamming_distance a b = 0 -> a = b.
Proof.
  unfold hamming_distance, popcount. intros Hz. apply Z.lxor_eq.
  destruct (Z.lxor a b) as [|p|p]; [done| |];
    pose proof (popcount_pos_positive p); lia.
Qed.

Lemma hamming_distance_self a : hamming_distance a a = 0.
Proof. unfold hamming_distance. by rewrite Z.lxor_nilpotent. Qed.

(** A list sorted by a key starts with the one element of key 0, when no
    key is negative. *)
Lemma sorted_head_zero {A} (key : A -> Z) (l : list A) (x : A) :
  x ∈ l -> key x = 0 ->
  (forall y, y ∈ l -> 0 <= key y) ->
  (forall y, y ∈ l -> key y = 0 -> y = x) ->
  exists t, sorted Z.ltb key false l = x :: t.
Proof.
  intros Hx Hkx Hnn Huniq.
  pose proof (sorted_StronglySorted Z.ltb key l (strict_weak_on_Z key l)) as Hs.
  pose proof (sorted_Permutation Z.ltb key false l) as Hp.
  destruct (sorted Z.ltb key false l) as [|h t].
  - rewrite <- Hp in Hx. by apply elem_of_nil in Hx.
  - exists t. f_equal.
    assert (Hh : h ∈ l) by (rewrite <- Hp; left).
    rewrite <- Hp in Hx. apply elem_of_cons in Hx as [->|Hx]; [done|].
    apply StronglySorted_inv in Hs as [_ Hall].
    rewrite Forall_forall in Hall. specialize (Hall x Hx).
    unfold key_le in Hall. apply Huniq; [done|].
    specialize (Hnn h Hh). lia.
Qed.

(** The bucket of the probe's own code, when there is one, is where the
    candidates start. *)
Lemma candidates_own_bucket self ci d_sc n :
  1 <= n ->
  d_sc ∈ CodeIndex.codes ci ->
  exists rest,
    candidates has_len self ci d_sc n
    = CodeIndex.get_descriptors ci d_sc ++ rest.
Proof.
  intros Hn Hin. unfold candidates, near_codes_of, nsmallest.
  destruct (sorted_head_zero (fun c : Z => hamming_distance d_sc c)
              (CodeIndex.codes ci) d_sc Hin (hamming_distance_self d_sc))
    as [t ->].
  { intros y _. apply hamming_distance_nonneg. }
  { intros y _ Hy. symmetry. by apply hamming_distance_zero. }
  destruct (Z.to_nat n) as [|m] eqn:Hm; [lia|]. simpl.
  destruct (_ >=? _).
  - exists []. by rewrite app_nil_r.
  - destruct (collect_neighbors_stop ci (Z.min n (count has_len self))
                (take m t) (CodeIndex.get_descriptors ci d_sc))
      as (k & _ & -> & _).
    by eexists.
Qed.

(** X11.  When the probe's code has a bucket, [nn] takes its candidates
    from that bucket first: the candidates start with its descriptors. *)
Theorem nn_own_bucket_first self d n v bits d_sc ci :
  1 <= n ->
  get_small_code self d = Ok (v, bits, d_sc) ->
  _code_index self = Some ci ->
  d_sc ∈ CodeIndex.codes ci ->
  exists rest,
    nn has_len self d n
    = rank_neighbors self v n (CodeIndex.get_descriptors ci d_sc ++ rest).
Proof.
  intros Hn Hsc Hci Hin.
  destruct (candidates_own_bucket self ci d_sc n Hn Hin) as [rest Hc].
  exists rest. rewrite (nn_unfold has_len _ _ _ _ _ _ _ Hsc Hci). by rewrite Hc.
Qed.

Lemma buckets_of_codes ci (l : list Z) :
  l ≡ₚ CodeIndex.codes ci ->
  concat (map (CodeIndex.get_descriptors ci) l) ≡ₚ CodeIndex.all_descriptors ci.
Proof.
  intros Hp. rewrite codes_Permutation in Hp.
  rewrite (concat_Permutation _ _ (Permutation_map _ Hp)).
  unfold CodeIndex.all_descriptors.
  assert (Heq : map (CodeIndex.get_descriptors ci) (map_to_list ci).*1
                = (map_to_list ci).*2); [|by rewrite Heq].
  assert (Hall : Forall (fun kb => ci !! kb.1 = Some kb.2) (map_to_list ci)).
  { rewrite Forall_forall. intros [code bucket] Hin.
    by apply elem_of_map_to_list in Hin. }
  clear Hp. induction Hall as [|[code bucket] l' Hkb _ IH]; [done|].
  simpl in *. f_equal; [|exact IH].
  unfold CodeIndex.get_descriptors. by rewrite Hkb.
Qed.

Lemma all_descriptors_length ci :
  Z.of_nat (length (CodeIndex.all_descriptors ci)) = CodeIndex.count ci.
Proof.
  unfold CodeIndex.all_descriptors, CodeIndex.count. f_equal.
  induction (map_to_list ci) as [|[code bucket] l IH]; [done|].
  simpl. rewrite length_app. by rewrite <- IH.
Qed.

(** With no empty bucket, asking for as many neighbors as the index
    holds makes every descriptor a candidate. *)
Lemma candidates_all self ci d_sc n :
  _code_index self = Some ci ->
  CodeIndex.populated ci = true ->
  CodeIndex.count ci <= n ->
  candidates has_len self ci d_sc n ≡ₚ CodeIndex.all_descriptors ci.
Proof.
  intros Hci Hpop Hn.
  assert (HK : Z.of_nat (length (CodeIndex.codes ci)) <= CodeIndex.count ci).
  { pose proof (buckets_length_ge ci (CodeIndex.codes ci)
                  (length (CodeIndex.codes ci)) Hpop (fun c Hc => Hc)
                  ltac:(lia)) as Hb.
    unfold buckets in Hb. rewrite firstn_all in Hb.
    rewrite <- (codes_total ci (CodeIndex.codes ci)) by done. lia. }
  assert (Hnear : near_codes_of ci d_sc n ≡ₚ CodeIndex.codes ci).
  { unfold near_codes_of, nsmallest.
    rewrite take_ge by (rewrite sorted_length; lia).
    apply sorted_Permutation. }
  unfold candidates. rewrite (count_code_index has_len self ci Hci).
  rewrite Z.min_r by lia.
  destruct (collect_neighbors_stop ci (CodeIndex.count ci)
              (near_codes_of ci d_sc n) [])
    as (k & Hk & -> & _ & Hreach & _).
  simpl in *.
  set (near := near_codes_of ci d_sc n) in *.
  assert (Hsplit :
    Z.of_nat (length (buckets ci near k))
    + Z.of_nat (length (concat (map (CodeIndex.get_descriptors ci)
                                    (drop k near))))
    = CodeIndex.count ci).
  { rewrite <- (codes_total ci near Hnear).
    rewrite <- (take_drop k near) at 3.
    rewrite map_app, concat_app, length_app. unfold buckets. lia. }
  assert (Hkl : k = length near).
  { destruct (decide (k < length near)%nat) as [Hlt|]; [|lia].
    specialize (Hreach Hlt).
    destruct (drop k near) as [|c rest] eqn:Hdrop.
    { apply (f_equal length) in Hdrop. rewrite length_drop in Hdrop.
      simpl in Hdrop. lia. }
    assert (Hc : c ∈ CodeIndex.codes ci).
    { rewrite <- Hnear, <- (take_drop k near), Hdrop.
      apply elem_of_app. right. left. }
    pose proof (populated_code ci c Hpop Hc) as H1.
    simpl in Hsplit. rewrite length_app in Hsplit. lia. }
  subst k. unfold buckets. rewrite firstn_all.
  by apply buckets_of_codes.
Qed.

(** What [rank_neighbors] returns for candidates whose distances can be
    compared: a first part of the candidates sorted by distance. *)
Lemma rank_neighbors_sorted self v n (cands : list DescriptorElement) :
  1 <= n ->
  cands <> [] ->
  exists ordered,
    ordered ≡ₚ zip (map (fun e => _dist_func self v (vector e)) cands) cands /\
    ordered
    = sorted num_lt fst false
        (zip (map (fun e => _dist_func self v (vector e)) cands) cands) /\
    (forall p, p ∈ ordered ->
       p.1 = _dist_func self v (vector p.2) /\ p.2 ∈ cands) /\
    ordered.*2 ≡ₚ cands /\
    rank_neighbors self v n cands
    = Ok ((take (Z.to_nat n) ordered).*2, (take (Z.to_nat n) ordered).*1).
Proof.
  intros Hn Hne.
  set (dist := fun e : DescriptorElement => _dist_func self v (vector e)).
  set (ordered := sorted num_lt fst false (zip (map dist cands) cands)).
  assert (Hperm : ordered ≡ₚ zip (map dist cands) cands)
    by apply sorted_Permutation.
  exists ordered. split; [done|]. split; [done|].
  assert (Hsnd : ordered.*2 ≡ₚ cands).
  { rewrite Hperm. rewrite snd_zip; [done|]. by rewrite length_map. }
  split; [|split; [done|]].
  - intros p Hp. rewrite Hperm in Hp.
    apply list_elem_of_lookup in Hp as [i Hi].
    apply lookup_zip_with_Some in Hi as (a & e & -> & Ha & He).
    rewrite list_lookup_fmap, He in Ha. injection Ha as <-.
    split; [done|]. by eapply list_elem_of_lookup_2.
  - unfold rank_neighbors. fold dist. fold ordered. unfold unzip_pairs.
    destruct ordered as [|p ordered'] eqn:Hord.
    { apply Permutation_nil in Hsnd. by symmetry in Hsnd. }
    rewrite <- Hord. simpl.
    unfold py_slice_to. replace (n <? 0) with false by lia.
    by rewrite !fmap_take.
Qed.

(** X10.  With no empty bucket, [nn] asked for at least as many neighbors
    as the index holds returns every descriptor of the index, each once
    for each time it is held. *)
Theorem nn_exhaustive self d n v bits d_sc ci :
  get_small_code self d = Ok (v, bits, d_sc) ->
  _code_index self = Some ci ->
  CodeIndex.populated ci = true ->
  0 < CodeIndex.count ci ->
  CodeIndex.count ci <= n ->
  exists neighbors distances,
    nn has_len self d n = Ok (neighbors, distances) /\
    neighbors ≡ₚ CodeIndex.all_descriptors ci /\
    distances = map (fun e => _dist_func self v (vector e)) neighbors.
Proof.
  intros Hsc Hci Hpop Hcount Hn.
  rewrite (nn_unfold has_len _ _ _ _ _ _ _ Hsc Hci).
  pose proof (candidates_all self ci d_sc n Hci Hpop Hn) as Hall.
  set (cands := candidates has_len self ci d_sc n) in *.
  assert (Hlen : Z.of_nat (length cands) = CodeIndex.count ci).
  { rewrite <- all_descriptors_length. f_equal. by apply Permutation_length. }
  assert (Hne : cands <> []).
  { intros Heq. rewrite Heq in Hlen. simpl in Hlen. lia. }
  destruct (rank_neighbors_sorted self v n cands ltac:(lia) Hne)
    as (ordered & Hperm & _ & Hpairs & Hsnd & ->).
  assert (Hlo : length ordered = length cands).
  { rewrite <- (length_fmap snd ordered). by apply Permutation_length. }
  rewrite take_ge by lia.
  eexists _, _. split; [done|]. split; [by rewrite Hsnd|].
  rewrite <- list_fmap_compose. apply list_fmap_ext.
  intros i p Hp. simpl. apply Hpairs. by eapply list_elem_of_lookup_2.
Qed.

(** X15.  Of the candidates it has collected, [nn] returns those of
    least distance: when the distances compare as numbers do, no
    candidate that is left out is nearer than one that is returned. *)
Theorem nn_returns_nearest_candidates self d n v bits d_sc ci :
  1 <= n ->
  get_small_code self d = Ok (v, bits, d_sc) ->
  _code_index self = Some ci ->
  CodeIndex.populated ci = true ->
  0 < CodeIndex.count ci ->
  strict_weakb num_lt
    (map (fun e => _dist_func self v (vector e))
         (CodeIndex.all_descriptors ci)) = true ->
  exists neighbors distances rest,
    nn has_len self d n = Ok (neighbors, distances) /\
    neighbors ++ rest ≡ₚ candidates has_len self ci d_sc n /\
    forall e e', e ∈ neighbors -> e' ∈ rest ->
      num_lt (_dist_func self v (vector e')) (_dist_func self v (vector e))
      = false.
Proof.
  intros Hn Hsc Hci Hpop Hcount Hcmp.
  rewrite (nn_unfold has_len _ _ _ _ _ _ _ Hsc Hci).
  pose proof (candidates_length has_len self ci d_sc n Hci Hpop) as Hlen.
  pose proof (candidates_elem has_len self ci d_sc n) as Hin.
  set (cands := candidates has_len self ci d_sc n) in *.
  assert (Hne : cands <> []).
  { intros Heq. rewrite Heq in Hlen. simpl in Hlen. lia. }
  destruct (rank_neighbors_sorted self v n cands Hn Hne)
    as (ordered & Hperm & Hord & Hpairs & Hsnd & ->).
  assert (Hsorted : StronglySorted (key_le num_lt fst) ordered).
  { rewrite Hord. apply sorted_StronglySorted.
    apply (strict_weakb_on _ _ _ _ Hcmp).
    intros p Hp. rewrite <- Hperm in Hp. apply Hpairs in Hp as [-> Hp].
    apply in_map_iff. exists p.2. split; [done|].
    by apply list_elem_of_In, Hin. }
  exists (take (Z.to_nat n) ordered).*2, (take (Z.to_nat n) ordered).*1,
         (drop (Z.to_nat n) ordered).*2.
  split; [done|]. split.
  - by rewrite <- fmap_app, take_drop.
  - intros e e' He He'.
    apply list_elem_of_fmap in He as (p & -> & Hp).
    apply list_elem_of_fmap in He' as (p' & -> & Hp').
    rewrite <- (take_drop (Z.to_nat n) ordered) in Hsorted.
    pose proof (StronglySorted_app_1_elem_of _ _ _ _ _ Hsorted Hp Hp') as Hle.
    unfold key_le in Hle.
    destruct (Hpairs p) as [<- _];
      [rewrite <- (take_drop (Z.to_nat n) ordered); apply elem_of_app; by left|].
    destruct (Hpairs p') as [<- _];
      [rewrite <- (take_drop (Z.to_nat n) ordered); apply elem_of_app; by right|].
    done.
Qed.

(** X12.  A descriptor that lies in the bucket of the code that
    [get_small_code] gives it is matched by itself or better: when the
    distances compare as numbers do, [nn] asked about it returns at its
    head a descriptor of the index that is not farther from it than its
    own copy in the index. *)
Theorem nn_of_indexed_descriptor self d n v bits d_sc ci :
  1 <= n ->
  get_small_code self d = Ok (v, bits, d_sc) ->
  _code_index self = Some ci ->
  d ∈ CodeIndex.get_descriptors ci d_sc ->
  strict_weakb num_lt
    (map (fun e => _dist_func self v (vector e))
         (CodeIndex.all_descriptors ci)) = true ->
  exists e neighbors dist0 distances,
    nn has_len self d n = Ok (e :: neighbors, dist0 :: distances) /\
    e ∈ CodeIndex.all_descriptors ci /\
    dist0 = _dist_func self v (vector e) /\
    num_lt (_dist_func self v (vector d)) dist0 = false.
Proof.
  intros Hn Hsc Hci Hin Hcmp.
  assert (Hcode : d_sc ∈ CodeIndex.codes ci).
  { unfold CodeIndex.codes. rewrite elem_of_elements, elem_of_dom.
    unfold CodeIndex.get_descriptors in Hin.
    destruct (ci !! d_sc); [done|]. by apply elem_of_nil in Hin. }
  destruct (candidates_own_bucket self ci d_sc n Hn Hcode) as [rest Hcands].
  rewrite (nn_unfold has_len _ _ _ _ _ _ _ Hsc Hci).
  pose proof (candidates_elem has_len self ci d_sc n) as Hsub.
  set (cands := candidates has_len self ci d_sc n) in *.
  assert (Hdc : d ∈ cands) by (rewrite Hcands; apply elem_of_app; by left).
  assert (Hne : cands <> []) by (intros Heq; rewrite Heq in Hdc;
                                 by apply elem_of_nil in Hdc).
  destruct (rank_neighbors_sorted self v n cands Hn Hne)
    as (ordered & Hperm & Hord & Hpairs & Hsnd & ->).
  assert (Hsw : strict_weak_on num_lt
            (fun e => _dist_func self v (vector e))
            (CodeIndex.all_descriptors ci)).
  { apply (strict_weakb_on _ _ _ _ Hcmp). intros a Ha.
    apply in_map_iff. exists a. split; [done|]. by apply list_elem_of_In. }
  assert (Hsorted : StronglySorted (key_le num_lt fst) ordered).
  { rewrite Hord. apply sorted_StronglySorted.
    apply (strict_weakb_on _ _ _ _ Hcmp).
    intros p Hp. rewrite <- Hperm in Hp. apply Hpairs in Hp as [-> Hp].
    apply in_map_iff. exists p.2. split; [done|].
    by apply list_elem_of_In, Hsub. }
  assert (Hdo : (_dist_func self v (vector d), d) ∈ ordered).
  { rewrite Hperm. apply list_elem_of_lookup in Hdc as [j Hj].
    apply list_elem_of_lookup. exists j. apply lookup_zip_with_Some.
    eexists _, d. split; [done|]. split; [|done].
    by rewrite list_lookup_fmap, Hj. }
  destruct ordered as [|p ordered']; [by apply elem_of_nil in Hdo|].
  destruct (Z.to_nat n) as [|m] eqn:Hm; [lia|]. simpl.
  destruct (Hpairs p ltac:(left)) as [Hp1 Hp2].
  exists p.2, (take m ordered').*2, p.1, (take m ordered').*1.
  split; [done|]. split; [by apply Hsub|]. split; [done|].
  apply elem_of_cons in Hdo as [<-|Hdo].
  - simpl. destruct Hsw as [Hasym _].
    specialize (Hasym d d (Hsub d Hdc) (Hsub d Hdc)).
    destruct (num_lt _ _); [by apply Hasym|done].
  - apply StronglySorted_inv in Hsorted as [_ Hall'].
    rewrite Forall_forall in Hall'. exact (Hall' _ Hdo).
Qed.

End QueryMore.

(** ** The shapes of what training installs *)

Section Shapes.
Context `{DistanceFunctions} (Hk : kernel_shapes).
Implicit Types (m x v r : ndarray2).

Lemma matrix_shape1 (n c : nat) m : (0 < n)%nat -> matrix n c m -> shape1 m = c.
Proof.
  intros Hn [Hlen Hrows]. destruct m as [|row m]; [simpl in Hlen; lia|].
  unfold shape1. simpl. by inversion Hrows.
Qed.

Lemma dot_vm_length (a z : ndarray1) m :
  dot_vm a m = Ok z -> length z = shape1 m.
Proof.
  unfold dot_vm. destruct (decide _); [|done].
  intros [= <-]. by rewrite length_map, length_seq.
Qed.

Lemma mapM_result_Forall {A B} (f : A -> result B) (P : B -> Prop)
    (l : list A) (k : list B) :
  (forall a b, f a = Ok b -> P b) -> mapM f l = Ok k -> Forall P k.
Proof.
  intros Hf Hm. apply mapM_result_Forall2 in Hm.
  induction Hm as [|a b l k Hab _ IH]; constructor; eauto.
Qed.

Lemma dot_matrix a b c : dot a b = Ok c -> matrix (length a) (shape1 b) c.
Proof.
  intros Hd. split.
  - unfold dot in Hd. by apply mapM_result_length in Hd.
  - apply (mapM_result_Forall _ _ _ _ (fun row z => dot_vm_length row z b) Hd).
Qed.

Lemma transpose_matrix (n c : nat) m :
  (0 < n)%nat -> matrix n c m -> matrix c n (transpose m).
Proof.
  intros Hn Hm. unfold transpose. rewrite (matrix_shape1 n c m Hn Hm).
  destruct Hm as [Hlen _]. split.
  - by rewrite length_map, length_seq.
  - apply Forall_forall. intros col Hcol.
    apply list_elem_of_fmap in Hcol as (j & -> & _).
    unfold column. by rewrite length_map.
Qed.

Lemma binarize_matrix (n c : nat) m :
  matrix n c m -> matrix n c (binarize m).
Proof.
  intros [Hlen Hrows]. unfold binarize. split; [by rewrite length_map|].
  apply Forall_fmap. eapply Forall_impl; [exact Hrows|].
  intros row Hrow. simpl. by rewrite length_map.
Qed.

Lemma np_isub_row_length (row b c : ndarray1) :
  np_isub_row row b = Ok c -> length c = length row.
Proof.
  unfold np_isub_row. destruct (decide _) as [Heq|].
  - intros [= <-]. rewrite length_zip_with. lia.
  - destruct b as [|y [|]]; try done. intros [= <-]. by rewrite length_map.
Qed.

Lemma np_isub_matrix (n d : nat) x (mu : ndarray1) x' :
  matrix n d x -> np_isub x mu = Ok x' -> matrix n d x'.
Proof.
  intros [Hlen Hrows] Hs. unfold np_isub in Hs. split.
  - apply mapM_result_length in Hs. etrans; [exact Hs|exact Hlen].
  - apply mapM_result_Forall2 in Hs.
    apply (Forall2_Forall_r _ _ _ _ Hs).
    eapply Forall_impl; [exact Hrows|].
    intros row Hrow row' Hsub. simpl in *.
    apply np_isub_row_length in Hsub. etrans; [exact Hsub|exact Hrow].
Qed.

Lemma itq_iteration_matrix (n k : nat) v r r' :
  (0 < n)%nat -> (0 < k)%nat ->
  matrix n k v -> matrix k k r ->
  itq_iteration v r = Ok r' -> matrix k k r'.
Proof.
  intros Hn Hk0 Hv Hr. unfold itq_iteration.
  destruct (dot v r) as [z|] eqn:Hz; cbn [mbind result_bind]; [|done].
  destruct (dot (transpose _) v) as [c|] eqn:Hc; cbn [mbind result_bind];
    [|done].
  destruct (linalg_svd c) as [[[ub sigma] ua]|] eqn:Hsvd;
    cbn [mbind result_bind]; [|done].
  intros Hdot.
  assert (Hzm : matrix n k z).
  { pose proof (dot_matrix _ _ _ Hz) as Hm.
    rewrite (matrix_shape1 k k r Hk0 Hr) in Hm. by rewrite (proj1 Hv) in Hm. }
  assert (Hcm : matrix k k c).
  { pose proof (dot_matrix _ _ _ Hc) as Hm.
    rewrite (matrix_shape1 n k v Hn Hv) in Hm.
    by rewrite (proj1 (transpose_matrix n k _ Hn (binarize_matrix _ _ _ Hzm)))
      in Hm. }
  destruct (svd_shape Hk k k c ub sigma ua Hk0 Hk0 Hcm Hsvd) as [Hub Hua].
  pose proof (dot_matrix _ _ _ Hdot) as Hm.
  rewrite (matrix_shape1 k k _ Hk0 (transpose_matrix k k ub Hk0 Hub)) in Hm.
  by rewrite (proj1 Hua) in Hm.
Qed.

Lemma itq_loop_matrix (n k : nat) (i : nat) v r r' :
  (0 < n)%nat -> (0 < k)%nat ->
  matrix n k v -> matrix k k r ->
  itq_loop i v r = Ok r' -> matrix k k r'.
Proof.
  intros Hn Hk0 Hv. revert r. induction i as [|i IH]; intros r Hr; simpl.
  - by intros [= <-].
  - destruct (itq_iteration v r) as [r1|] eqn:Hit; cbn [mbind result_bind];
      [|done].
    apply IH. by apply (itq_iteration_matrix n k v r).
Qed.

Lemma itq_rotation_matrix (n k : nat) v n_iter g c r :
  (0 < n)%nat -> (0 < k)%nat ->
  matrix n k v ->
  (itq_rotation v n_iter g).2 = Ok (c, r) -> matrix k k r.
Proof.
  intros Hn Hk0 Hv. unfold itq_rotation.
  rewrite (matrix_shape1 n k v Hn Hv).
  pose proof (randn_shape Hk k k g) as Hrand.
  destruct (randn k k g) as [m g']. cbn [fst snd] in *.
  destruct (linalg_svd m) as [[[u11 s2] v2]|] eqn:Hsvd;
    cbn [mbind result_bind]; [|done].
  destruct (svd_shape Hk k k m u11 s2 v2 Hk0 Hk0 Hrand Hsvd) as [[Hul Hur] _].
  destruct (itq_loop _ v _) as [r1|] eqn:Hloop; cbn [mbind result_bind];
    [|done].
  destruct (dot v r1) as [z|]; cbn [mbind result_bind]; [|done].
  intros [= _ <-].
  eapply (itq_loop_matrix n k _ v _ r1 Hn Hk0 Hv); [|exact Hloop].
  split; [by rewrite length_map|].
  apply Forall_fmap. eapply Forall_impl; [exact Hur|].
  intros row Hrow. simpl in *. rewrite length_take, Hrow. lia.
Qed.

Lemma pca_matrix (n d : nat) (b : Z) x pc_top xx :
  (0 < n)%nat -> (2 <= d)%nat -> 0 < b ->
  matrix n d x ->
  pca b x = Ok (pc_top, xx) ->
  matrix d (Nat.min (Z.to_nat b) d) pc_top /\
  matrix n (Nat.min (Z.to_nat b) d) xx.
Proof.
  intros Hn Hd Hb Hx. unfold pca.
  destruct (np_cov _) as [c|] eqn:Hcov; cbn [mbind result_bind]; [|done].
  destruct (linalg_eig c) as [[l pc]|] eqn:Heig; cbn [mbind result_bind];
    [|done].
  destruct (dot x _) as [xx'|] eqn:Hdot; cbn [mbind result_bind]; [|done].
  intros [= <- <-].
  pose proof (cov_shape Hk d n _ c Hd (transpose_matrix n d x Hn Hx) Hcov)
    as Hc.
  destruct (eig_shape Hk d c l pc Hc Heig) as [Hl Hpc].
  assert (Hd0 : (0 < d)%nat) by lia.
  pose proof (transpose_matrix d d pc Hd0 Hpc) as [Htl Htr].
  set (pairs := py_slice_to b (sorted num_lt fst true (zip l (transpose pc))))
    in *.
  assert (Hpl : length pairs = Nat.min (Z.to_nat b) d).
  { unfold pairs, py_slice_to. replace (b <? 0) with false by lia.
    rewrite length_take, sorted_length, length_zip_with.
    unfold ndarray1, ndarray2 in *. lia. }
  assert (Hpr : Forall (fun p : num * ndarray1 => length p.2 = d) pairs).
  { apply Forall_forall. intros p Hp. unfold pairs, py_slice_to in Hp.
    replace (b <? 0) with false in Hp by lia.
    apply elem_of_take in Hp as (i & Hp & _).
    apply list_elem_of_lookup_2 in Hp.
    rewrite sorted_Permutation in Hp.
    apply list_elem_of_lookup in Hp as [j Hj].
    apply lookup_zip_with_Some in Hj as (e & col & -> & _ & Hcol).
    rewrite Forall_forall in Htr. apply Htr.
    by eapply list_elem_of_lookup_2. }
  assert (Hk0 : (0 < Nat.min (Z.to_nat b) d)%nat) by lia.
  assert (Htop : matrix d (Nat.min (Z.to_nat b) d)
                   (transpose (map snd pairs))).
  { apply transpose_matrix; [exact Hk0|]. split; [by rewrite length_map|].
    by apply Forall_fmap. }
  split; [exact Htop|].
  pose proof (dot_matrix _ _ _ Hdot) as Hm.
  rewrite (matrix_shape1 d _ _ Hd0 Htop) in Hm. by rewrite (proj1 Hx) in Hm.
Qed.

(** X16.  After a successful [build_index] on
    descriptors of [D >= 2] entries with a bit length [b > 0], the mean
    vector has [D] entries and the rotation [D] rows and [k = min(b, D)]
    columns; [get_small_code] of a descriptor of [D] entries returns the
    descriptor's own vector, the [k] bits obtained by subtracting the
    mean, multiplying by the rotation and testing each component for
    [>= 0], and those bits packed most-significant-first: an integer in
    [0, 2^k), hence in [0, 2^b), whose binary digit of weight [2^(k-1-j)]
    is bit [j]. *)
Theorem get_small_code_spec descriptors w w' (d : DescriptorElement)
    (D : nat) :
  build_index descriptors w = (w', Ok tt) ->
  (2 <= D)%nat ->
  0 < _bit_len (w_self w) ->
  Forall (fun e => length (vector e) = D) descriptors ->
  length (vector d) = D ->
  let b := _bit_len (w_self w) in
  let k := Nat.min (Z.to_nat b) D in
  exists (mu : ndarray1) (R : ndarray2) (bits : list bool) (code : Z),
    _mean_vector (w_self w') = Some mu /\
    _r (w_self w') = Some R /\
    length mu = D /\
    matrix D k R /\
    get_small_code (w_self w') d = Ok (vector d, bits, code) /\
    length bits = k /\
    (forall j, (j < k)%nat ->
       bits !! j
       = Some (num_ge (inner (zip_with num_sub (vector d) mu) (column j R))
                      num_zero)) /\
    code = bit_utils.bit_vector_to_int bits /\
    0 <= code < 2 ^ Z.of_nat k /\
    2 ^ Z.of_nat k <= 2 ^ b /\
    (forall j bit, bits !! j = Some bit ->
       Z.testbit code (Z.of_nat k - 1 - Z.of_nat j) = bit).
Proof.
  intros Hrun HD Hb Hdim Hd b k. destruct w as [self g st].
  cbn [w_self] in *.
  destruct (build_index_success _ _ _ _ _ Hrun)
    as (g1 & mu & x & pc_top & xx & z & r & R & _ & Hne & Hmu & Hx & Hpca
        & Hrot & _ & HR & _ & Hself & _).
  assert (Hn : (0 < length descriptors)%nat)
    by (destruct descriptors; [done|simpl; lia]).
  assert (Hxm : matrix (length descriptors) D (map vector descriptors)).
  { split; [by rewrite length_map|]. by apply Forall_fmap. }
  pose proof (mean_shape Hk _ _ _ _ Hn Hxm Hmu) as Hlmu.
  pose proof (np_isub_matrix _ _ _ _ _ Hxm Hx) as Hx'.
  destruct (pca_matrix _ _ _ _ _ _ Hn HD Hb Hx' Hpca) as [Htop Hxx].
  fold b in Htop, Hxx. fold k in Htop, Hxx.
  assert (Hk0 : (0 < k)%nat) by (unfold k; lia).
  pose proof (itq_rotation_matrix _ _ _ _ _ _ _ Hn Hk0 Hxx Hrot) as Hr.
  assert (HRm : matrix D k R).
  { pose proof (dot_matrix _ _ _ HR) as Hm.
    rewrite (matrix_shape1 k k r Hk0 Hr) in Hm. by rewrite (proj1 Htop) in Hm. }
  assert (Hmu' : _mean_vector (w_self w') = Some mu) by (by rewrite Hself).
  assert (HR' : _r (w_self w') = Some R) by (by rewrite Hself).
  destruct (get_small_code_bits (w_self w') d mu R D k Hmu' HR'
              ltac:(lia) Hk0 Hd Hlmu (proj1 HRm) (proj2 HRm))
    as (bits & code & Hsc & Hlen & Hbits & Hcode & Hrange & Htest).
  exists mu, R, bits, code.
  do 9 (split; [done|]). split; [|done].
  apply Z.pow_le_mono_r; [lia|]. unfold k. lia.
Qed.

End Shapes.

(** ** The methods on concrete inputs *)

Import Toy.

(** C1, against the specification.  On an instance that was never trained
    [nn] raises TypeError, and on a trained one whose code index holds
    nothing it raises ValueError: two errors of general use, and no one
    error class for an index without descriptors. *)
Lemma nn_empty_index_no_dedicated_error :
  count true (fresh None) = 0 /\
  count true emptied = 0 /\
  nn true (fresh None) probe 1 = Raise TypeError /\
  nn true emptied probe 1 = Raise ValueError /\
  ~ exists e, nn true (fresh None) probe 1 = Raise e /\
              nn true emptied probe 1 = Raise e.
Proof.
  assert (H1 : nn true (fresh None) probe 1 = Raise TypeError)
    by (vm_compute; reflexivity).
  assert (H2 : nn true emptied probe 1 = Raise ValueError)
    by (vm_compute; reflexivity).
  repeat split; try (vm_compute; reflexivity).
  intros (e & He1 & He2). rewrite H1 in He1. rewrite H2 in He2. congruence.
Qed.

Lemma nn_empty_index_raises_witness :
  count true emptied = 0 /\
  ((exists e, nn true emptied probe 1 = Raise e) /\
   (_mean_vector emptied = None -> nn true emptied probe 1 = Raise TypeError) /\
   (forall v bits d_sc ci,
      get_small_code emptied probe = Ok (v, bits, d_sc) ->
      _code_index emptied = Some ci ->
      nn true emptied probe 1 = Raise ValueError)).
Proof.
  split; [vm_compute; reflexivity|].
  apply (nn_empty_index_raises true emptied probe 1).
  vm_compute; reflexivity.
Defined.


(** C3, where the code falls short of its documentation.  With
    [random_seed=0] the
    generator is not seeded: two instances of the same configuration,
    trained one after the other on the same corpus, end with different
    rotations and give the third descriptor different codes.  With the
    seed 7 the two runs agree. *)
Theorem build_index_seed_zero_not_reproducible :
  let run1 := build_index corpus (world (fresh (Some 0)) 0) in
  let run2 :=
    build_index corpus (world (fresh (Some 0)) (w_random run1.1)) in
  let run1' := build_index corpus (world (fresh (Some 7)) 0) in
  let run2' :=
    build_index corpus (world (fresh (Some 7)) (w_random run1'.1)) in
  new_index (Some 0) = Ok (fresh (Some 0)) /\
  run1.2 = Ok tt /\ run2.2 = Ok tt /\
  _r (w_self run1.1) = Some [[Some 0; Some 1]; [Some 1; Some 0]] /\
  _r (w_self run2.1) = Some [[Some 0; Some 1]; [Some (-1); Some 0]] /\
  get_small_code (w_self run1.1) (descr 3 [0; 6])
  = Ok ([Some 0; Some 6], [true; true], 3) /\
  get_small_code (w_self run2.1) (descr 3 [0; 6])
  = Ok ([Some 0; Some 6], [false; true], 1) /\
  _code_index (w_self run1.1) <> _code_index (w_self run2.1) /\
  w_self run1'.1 = w_self run2'.1.
Proof.
  repeat split; try (vm_compute; reflexivity).
  intros Heq.
  apply (f_equal (fun ci => CodeIndex.get_descriptors (default ∅ ci) 1)) in Heq.
  vm_compute in Heq. discriminate.
Qed.


Lemma nn_candidates_witness :
  1 <= 2 /\
  get_small_code trained probe = Ok ([Some 2; Some 1], [false; false], 0) /\
  _code_index trained = Some trained_code_index /\
  let near := near_codes_of trained_code_index 0 2 in
  let termination_count := Z.min 2 (CodeIndex.count trained_code_index) in
  nn true trained probe 2
  = rank_neighbors trained [Some 2; Some 1] 2
      (candidates true trained trained_code_index 0 2) /\
  (exists rest,
     near ++ rest ≡ₚ CodeIndex.codes trained_code_index /\
     forall c c', c ∈ near -> c' ∈ rest ->
       hamming_distance 0 c <= hamming_distance 0 c') /\
  length near
  = Nat.min (Z.to_nat 2) (length (CodeIndex.codes trained_code_index)) /\
  StronglySorted
    (fun c c' => hamming_distance 0 c <= hamming_distance 0 c') near /\
  exists k : nat,
    (k <= length near)%nat /\
    candidates true trained trained_code_index 0 2
    = buckets trained_code_index near k /\
    (forall j, (1 <= j < k)%nat ->
       Z.of_nat (length (buckets trained_code_index near j))
       < termination_count) /\
    ((k < length near)%nat ->
       termination_count
       <= Z.of_nat (length (buckets trained_code_index near k))) /\
    (near <> [] -> (1 <= k)%nat).
Proof.
  repeat (split; [first [lia | vm_compute; reflexivity]|]).
  apply (nn_candidates true trained probe 2 [Some 2; Some 1] [false; false] 0
           trained_code_index);
    first [lia | vm_compute; reflexivity].
Defined.

(** The kernels of [Toy] return arrays of the documented shapes. *)
Lemma diag_matrix_matrix (d : list tnum) (n : nat) :
  length d = n -> matrix n n (diag_matrix d).
Proof.
  intros <-. unfold diag_matrix. split; [by rewrite length_imap|].
  apply Forall_forall. intros row Hrow.
  apply list_elem_of_lookup in Hrow as [i Hi].
  rewrite list_lookup_imap in Hi.
  apply fmap_Some in Hi as (e & _ & ->). by rewrite length_imap.
Qed.

Lemma toy_kernel_shapes : kernel_shapes.
Proof.
  constructor.
  - intros r c g. simpl. unfold toy_randn. simpl. split.
    + by rewrite length_map, length_seq.
    + apply Forall_forall. intros row Hrow.
      apply list_elem_of_fmap in Hrow as (i & -> & _).
      by rewrite length_map, length_seq.
  - intros n d x mu Hn Hx. simpl. unfold toy_mean.
    destruct (_ || _); [done|]. intros [= <-].
    rewrite length_map, length_seq.
    exact (@matrix_shape1 toy_numpy n d x Hn Hx).
  - intros d n m c _ [Hlen _]. simpl. unfold toy_cov. intros [= <-]. split.
    + rewrite !length_map. exact Hlen.
    + apply Forall_forall. intros row Hrow.
      apply list_elem_of_fmap in Hrow as (ri & -> & _).
      rewrite !length_map. exact Hlen.
  - intros d c l pc [Hlen _]. simpl. unfold toy_eig.
    destruct (negb _); [done|]. destruct (diagonal c); [|done].
    intros [= <- <-]. split.
    + unfold diag_entries. rewrite length_imap. exact Hlen.
    + apply diag_matrix_matrix. rewrite length_map. exact Hlen.
  - intros r c m u s v Hr Hc Hm. simpl. unfold toy_svd.
    destruct (negb _); [done|]. destruct (diagonal m) eqn:Hdiag; [|done].
    intros [= <- _ <-].
    assert (Hsq : r = c).
    { unfold diagonal in Hdiag.
      apply andb_prop in Hdiag as [Hdiag _].
      apply andb_prop in Hdiag as [Hdiag _].
      apply andb_prop in Hdiag as [Hdiag _].
      apply Nat.eqb_eq in Hdiag.
      pose proof (@matrix_shape1 toy_numpy r c m Hr Hm) as Hs.
      destruct Hm as [Hlen _].
      etrans; [symmetry; exact Hlen|]. etrans; [exact Hdiag|exact Hs]. }
    subst c. destruct Hm as [Hlen _]. split.
    + apply diag_matrix_matrix. unfold diag_entries.
      rewrite length_map, length_imap. exact Hlen.
    + apply diag_matrix_matrix. rewrite length_map. exact Hlen.
Qed.

(** C4, where the code falls short of its documentation.  With a bit
    length of 4 on descriptors of two entries only two principal
    directions are there to keep: the rotation that training installs has
    two columns, and [get_small_code] returns two bits, not four. *)
Theorem get_small_code_fewer_bits :
  __init__ default_index_factory 4 3 "euclidean" (Some 7) = Ok fresh_wide /\
  (build_index corpus (world fresh_wide 0)).2 = Ok tt /\
  _bit_len trained_wide = 4 /\
  _r trained_wide = Some [[Some 0; Some (-1)]; [Some (-1); Some 0]] /\
  get_small_code trained_wide probe
  = Ok ([Some 2; Some 1], [false; false], 0) /\
  ~ exists bits code,
      get_small_code trained_wide probe = Ok (vector probe, bits, code) /\
      length bits = 4%nat.
Proof.
  assert (Hsc : get_small_code trained_wide probe
                = Ok ([Some 2; Some 1], [false; false], 0))
    by reflexivity.
  repeat split; try reflexivity.
  intros (bits & code & Hbits & Hlen). rewrite Hsc in Hbits.
  injection Hbits as <- <-. discriminate Hlen.
Qed.

Lemma get_small_code_spec_witness :
  let w := world (fresh (Some 7)) 0 in
  let w' := (build_index corpus w).1 in
  kernel_shapes /\
  build_index corpus w = (w', Ok tt) /\
  (2 <= 2)%nat /\
  0 < _bit_len (w_self w) /\
  Forall (fun e : DescriptorElement => length (vector e) = 2%nat) corpus /\
  length (vector probe) = 2%nat /\
  let b := _bit_len (w_self w) in
  let k := Nat.min (Z.to_nat b) 2 in
  exists (mu : ndarray1) (R : ndarray2) (bits : list bool) (code : Z),
    _mean_vector (w_self w') = Some mu /\
    _r (w_self w') = Some R /\
    length mu = 2%nat /\
    matrix 2 k R /\
    get_small_code (w_self w') probe = Ok (vector probe, bits, code) /\
    length bits = k /\
    (forall j, (j < k)%nat ->
       bits !! j
       = Some (num_ge (inner (zip_with num_sub (vector probe) mu)
                             (column j R))
                      num_zero)) /\
    code = bit_utils.bit_vector_to_int bits /\
    0 <= code < 2 ^ Z.of_nat k /\
    2 ^ Z.of_nat k <= 2 ^ b /\
    (forall j bit, bits !! j = Some bit ->
       Z.testbit code (Z.of_nat k - 1 - Z.of_nat j) = bit).
Proof.
  intros w w'.
  assert (Hrun : build_index corpus w = (w', Ok tt)) by reflexivity.
  assert (Hdim : Forall (fun e : DescriptorElement =>
                           length (vector e) = 2%nat) corpus)
    by (repeat constructor).
  split; [exact toy_kernel_shapes|]. split; [exact Hrun|].
  split; [lia|]. split; [reflexivity|]. split; [exact Hdim|].
  split; [reflexivity|].
  apply (get_small_code_spec toy_kernel_shapes corpus w w' probe 2 Hrun);
    first [lia | reflexivity | exact Hdim].
Defined.

(** C8, against the specification.  A saved state whose 8 bits go with a
    three-dimensional mean and a two-by-two rotation is installed without
    complaint. *)
Lemma load_index_unvalidated :
  let out := load_index fs_mismatched "idx" (world (fresh None) 0) in
  out.2 = Ok tt /\
  _bit_len (w_self out.1) = 8 /\
  _mean_vector (w_self out.1) = Some [Some 0; Some 0; Some 0] /\
  _r (w_self out.1) = Some [[Some 1; Some 0]; [Some 0; Some 1]].
Proof. repeat split; reflexivity. Qed.


(** C10, against the specification.  On an instance as constructed,
    [load_index] of a saved state with an unknown distance label fails
    with ValueError, after the code index of the state has been assigned:
    [count()] is then 4, with no training or load that succeeded. *)
Lemma count_after_failed_load :
  let out := load_index fs_mislabelled "idx" (world (fresh None) 0) in
  new_index None = Ok (fresh None) /\
  count true (fresh None) = 0 /\
  out.2 = Raise ValueError /\
  count true (w_self out.1) = 4.
Proof. repeat split; reflexivity. Qed.

(** ** The query with the cosine distance *)

Section CosineRuns.
Import Cosine.


End CosineRuns.

(** ** The methods on integer inputs *)

Section ExactRuns.
Import Exact.

(** Running the definitions on the concrete inputs. *)
Ltac run :=
  lazymatch goal with
  | |- _ <= _ => first [ lia | vm_compute; discriminate ]
  | |- _ < _ => first [ lia | vm_compute; reflexivity ]
  | |- _ <> _ => discriminate
  | |- _ => reflexivity
  end.

Lemma build_index_keeps_configuration_witness :
  let w := world (fresh (Some 7)) 0 in
  well_configured (w_self w) /\
  same_configuration (w_self w) (w_self (build_index corpus w).1) /\
  well_configured (w_self (build_index corpus w).1).
Proof.
  intros w.
  assert (Hwc : well_configured (w_self w))
    by (unfold well_configured; repeat apply conj; run).
  split; [exact Hwc|].
  apply (build_index_keeps_configuration corpus w Hwc).
Defined.

Lemma load_index_missing_rotation_witness :
  let w := world (fresh None) 0 in
  fs_truncated !! osp_join "idx" (_save_file (w_self w))
  = Some (RegularFile (Pickled truncated_state)) /\
  state_bit_len truncated_state = Some 8 /\
  state_itq_iter truncated_state = Some 5 /\
  state_rand_seed truncated_state = Some (Some 1) /\
  state_mean_vector truncated_state = Some (Some [1; 1]) /\
  state_rotation truncated_state = None /\
  let out := load_index fs_truncated "idx" w in
  out.2 = Raise KeyError /\
  w_self out.1
  = {| _save_file := _save_file (w_self w);
       _bit_len := 8;
       _itq_iter_num := 5;
       _rand_seed := Some 1;
       _mean_vector := Some [1; 1];
       _r := _r (w_self w);
       _index_factory := _index_factory (w_self w);
       _code_index := _code_index (w_self w);
       _dist_method := _dist_method (w_self w);
       _dist_func := _dist_func (w_self w) |}.
Proof.
  intros w. do 6 (split; [run|]).
  apply (load_index_missing_rotation fs_truncated "idx" w truncated_state
           8 5 (Some 1) (Some [1; 1]));
    run.
Defined.

Lemma load_index_unknown_distance_witness :
  let w := world (fresh None) 0 in
  fs_mislabelled !! osp_join "idx" (_save_file (w_self w))
  = Some (RegularFile (Pickled mislabelled_state)) /\
  complete mislabelled_state
  = Some (8, 5, Some 1, Some [1; 1], Some [[1; 0]; [0; 1]],
          Some CodeIndex.empty, "manhattan") /\
  "manhattan" <> "euclidean" /\ "manhattan" <> "cosine" /\
  "manhattan" <> "hik" /\
  let out := load_index fs_mislabelled "idx" w in
  out.2 = Raise ValueError /\
  w_self out.1
  = {| _save_file := _save_file (w_self w);
       _bit_len := 8;
       _itq_iter_num := 5;
       _rand_seed := Some 1;
       _mean_vector := Some [1; 1];
       _r := Some [[1; 0]; [0; 1]];
       _index_factory := _index_factory (w_self w);
       _code_index := Some CodeIndex.empty;
       _dist_method := "manhattan";
       _dist_func := _dist_func (w_self w) |}.
Proof.
  intros w. do 2 (split; [run|]).
  do 3 (split; [run|]).
  apply (load_index_unknown_distance fs_mislabelled "idx" w mislabelled_state
           8 5 (Some 1) (Some [1; 1]) (Some [[1; 0]; [0; 1]])
           (Some CodeIndex.empty) "manhattan");
    run.
Defined.

Lemma nn_exhaustive_witness :
  get_small_code trained probe = Ok ([2; 1], [false; false], 0) /\
  _code_index trained = Some trained_code_index /\
  CodeIndex.populated trained_code_index = true /\
  0 < CodeIndex.count trained_code_index /\
  CodeIndex.count trained_code_index <= 10 /\
  exists neighbors distances,
    nn true trained probe 10 = Ok (neighbors, distances) /\
    neighbors ≡ₚ CodeIndex.all_descriptors trained_code_index /\
    distances = map (fun e => _dist_func trained [2; 1] (vector e)) neighbors.
Proof.
  do 3 (split; [run|]).
  split; [run|].
  split; [run|].
  apply (nn_exhaustive true trained probe 10 [2; 1] [false; false] 0
           trained_code_index);
    run.
Defined.

Lemma nn_own_bucket_first_witness :
  1 <= 1 /\
  get_small_code trained (descr 3 [0; 6]) = Ok ([0; 6], [false; true], 1) /\
  _code_index trained = Some trained_code_index /\
  1 ∈ CodeIndex.codes trained_code_index /\
  exists rest,
    nn true trained (descr 3 [0; 6]) 1
    = rank_neighbors trained [0; 6] 1
        (CodeIndex.get_descriptors trained_code_index 1 ++ rest).
Proof.
  assert (Hin : 1 ∈ CodeIndex.codes trained_code_index)
    by (apply list_elem_of_In; vm_compute; auto).
  split; [run|]. do 2 (split; [run|]).
  split; [exact Hin|].
  apply (nn_own_bucket_first true trained (descr 3 [0; 6]) 1 [0; 6]
           [false; true] 1 trained_code_index);
    first [exact Hin | run].
Defined.

Lemma get_small_code_dimensions_witness :
  _mean_vector trained = Some [0; 0] /\
  _r trained = Some [[0; -1]; [-1; 0]] /\
  let v := vector probe in
  (forall e, get_small_code trained probe = Raise e -> e = ValueError) /\
  (is_Ok (get_small_code trained probe) = true <->
   (length v = length [0; 0] /\ length v = length [[0; -1]; [-1; 0]]) \/
   (length v = 1%nat /\ length [0; 0] <> 1%nat /\
    length [0; 0] = length [[0; -1]; [-1; 0]]) \/
   (length [0; 0] = 1%nat /\ length v <> 1%nat /\
    length v = length [[0; -1]; [-1; 0]])).
Proof.
  do 2 (split; [run|]).
  apply (get_small_code_dimensions trained probe [0; 0] [[0; -1]; [-1; 0]]);
    run.
Defined.

Lemma build_index_negative_seed_witness :
  let w := world (fresh (Some (-1))) 0 in
  _rand_seed (w_self w) = Some (-1) /\
  -1 < 0 /\
  is_Ok (build_index corpus w).2 = false /\
  (build_index corpus w).1 = w.
Proof.
  intros w. split; [run|]. split; [run|].
  apply (build_index_negative_seed corpus w (-1)); run.
Defined.

Lemma nn_returns_nearest_candidates_witness :
  1 <= 2 /\
  get_small_code trained probe = Ok ([2; 1], [false; false], 0) /\
  _code_index trained = Some trained_code_index /\
  CodeIndex.populated trained_code_index = true /\
  0 < CodeIndex.count trained_code_index /\
  strict_weakb num_lt
    (map (fun e => _dist_func trained [2; 1] (vector e))
         (CodeIndex.all_descriptors trained_code_index)) = true /\
  exists neighbors distances rest,
    nn true trained probe 2 = Ok (neighbors, distances) /\
    neighbors ++ rest ≡ₚ candidates true trained trained_code_index 0 2 /\
    forall e e', e ∈ neighbors -> e' ∈ rest ->
      num_lt (_dist_func trained [2; 1] (vector e'))
             (_dist_func trained [2; 1] (vector e)) = false.
Proof.
  split; [run|]. do 4 (split; [run|]).
  split; [run|].
  apply (nn_returns_nearest_candidates true trained probe 2 [2; 1]
           [false; false] 0 trained_code_index);
    run.
Defined.

Lemma save_load_round_trip_witness :
  save_index ∅ "idx" trained = (saved_fs, Ok tt) /\
  _save_file (fresh None) = _save_file trained /\
  let out := load_index saved_fs "idx" (world (fresh None) 0) in
  w_random out.1 = 0 /\
  w_store out.1 = [] /\
  match _get_dist_func (_dist_method trained) with
  | Ok f =>
      out.2 = Ok tt /\
      w_self out.1
      = {| _save_file := _save_file trained;
           _bit_len := _bit_len trained;
           _itq_iter_num := _itq_iter_num trained;
           _rand_seed := _rand_seed trained;
           _mean_vector := _mean_vector trained;
           _r := _r trained;
           _index_factory := _index_factory (fresh None);
           _code_index := _code_index trained;
           _dist_method := _dist_method trained;
           _dist_func := f |} /\
      count true (w_self out.1) = count true trained /\
      (forall d, get_small_code (w_self out.1) d = get_small_code trained d) /\
      (f = _dist_func trained ->
       forall d n, nn true (w_self out.1) d n = nn true trained d n)
  | Raise _ => out.2 = Raise ValueError
  end.
Proof.
  do 2 (split; [run|]).
  apply (save_load_round_trip true ∅ "idx" trained saved_fs (fresh None) 0 []);
    run.
Defined.

Lemma build_index_forgets_witness :
  same_configuration (fresh (Some 7)) trained /\
  let out1 := build_index corpus (world (fresh (Some 7)) 0) in
  let out2 := build_index corpus (world trained 0) in
  out1.2 = out2.2 /\
  w_random out1.1 = w_random out2.1 /\
  w_store out1.1 = w_store out2.1 /\
  (is_Ok out1.2 = true -> w_self out1.1 = w_self out2.1).
Proof.
  assert (Hc : same_configuration (fresh (Some 7)) trained)
    by (unfold same_configuration; repeat apply conj; run).
  split; [exact Hc|].
  apply (build_index_forgets corpus (fresh (Some 7)) trained 0 [] Hc).
Defined.



Lemma nn_of_indexed_descriptor_witness :
  let d := descr 3 [0; 6] in
  1 <= 1 /\
  get_small_code trained d = Ok ([0; 6], [false; true], 1) /\
  _code_index trained = Some trained_code_index /\
  d ∈ CodeIndex.get_descriptors trained_code_index 1 /\
  strict_weakb num_lt
    (map (fun e => _dist_func trained [0; 6] (vector e))
         (CodeIndex.all_descriptors trained_code_index)) = true /\
  exists e neighbors dist0 distances,
    nn true trained d 1 = Ok (e :: neighbors, dist0 :: distances) /\
    e ∈ CodeIndex.all_descriptors trained_code_index /\
    dist0 = _dist_func trained [0; 6] (vector e) /\
    num_lt (_dist_func trained [0; 6] (vector d)) dist0 = false.
Proof.
  intros d.
  assert (Hin : d ∈ CodeIndex.get_descriptors trained_code_index 1)
    by (apply list_elem_of_In; vm_compute; auto).
  split; [run|]. do 2 (split; [run|]). split; [exact Hin|].
  split; [run|].
  apply (nn_of_indexed_descriptor true trained d 1 [0; 6] [false; true] 1
           trained_code_index);
    first [exact Hin | run].
Defined.


End ExactRuns.
